(** * LiquidAudioBook: ingestion, synthesis driver and audiobook assembly

    A shallow embedding of the pipeline in
    [backend/src/audiobook_generator]:

    - [page_processor.py]    ([PageProcessor.text2json], [process]),
    - [page_file_handler.py] ([PageFileHandler.on_created], [process_page],
                              [append_to_csv]),
    - [main.py]              ([process_existing_files], [main]),
    - [text_to_speech.py]    ([TTSProcessor.generate_audio],
                              [text_to_speech_batch], [combine_audiobook]),
    - [api.py]               ([allowed_file], the directory branch of
                              [extract_text]).

    External collaborators (the ollama chat calls, the llama-lfm2-audio
    binary, the file system, soundfile, torchaudio's resampler, the clock)
    are explicit oracle arguments.

    Modelling choices:
    - A Python [str] is a [string] holding its UTF-8 encoding; its
      characters are [Py.code_points].  White space is what [str.isspace]
      says, a decimal digit what the interpreter's Unicode table says,
      which is an argument ([Py.UnicodeData]).  [lower()] is only applied
      to file suffixes, where ASCII letters are all that matters.  Paths
      are POSIX paths.
    - [pages.csv] is the list of its rows.  Appending a row succeeds unless
      [os.makedirs] is called on an empty directory name; other I/O errors
      are left out.
    - A pandas frame is the list of its rows under the default index
      0, 1, 2, ...  A text cell is NaN, a [str] or something else (a
      column pandas has read as numbers), a page number an integer or
      something else, an audio path NaN ([None]) or a path.
      [pd.read_csv], [df.to_csv] and [mkdir] are the boundary of the
      model.
    - pandas' default sort is not stable: the order of rows with equal
      page numbers is an argument ([tie_rank]).
    - [silence_duration] is a binary64 float, as in Python.
    - Exceptions are values: [option] where the code turns every exception
      into [None] or [""], a sum type where it lets them escape. *)

From Stdlib Require Import ZArith Ascii String DecimalString DecimalN DecimalPos Floats.
From stdpp Require Import gmap strings list sorting.

Local Open Scope string_scope.
Local Open Scope list_scope.
Local Open Scope Z_scope.

(** ** Python string and path primitives *)

Module Py.

(** A [str] is held as its UTF-8 encoding; [code_points s] are its
    characters.  A byte that is not part of a well-formed sequence stands
    for the lone surrogate (U+DC80 to U+DCFF) by which Python keeps such a
    byte of a file name. *)
Definition continuation (b : N) : bool := ((128 <=? b) && (b <? 192))%N.

Fixpoint code_points (s : string) : list N :=
  match s with
  | EmptyString => []
  | String c0 r0 =>
      let b0 := N_of_ascii c0 in
      let escaped := (56320 + b0)%N :: code_points r0 in
      if (b0 <? 128)%N then b0 :: code_points r0
      else
        match r0 with
        | EmptyString => escaped
        | String c1 r1 =>
            let b1 := N_of_ascii c1 in
            if negb (continuation b1) then escaped
            else if ((194 <=? b0) && (b0 <? 224))%N then
              ((b0 - 192) * 64 + (b1 - 128))%N :: code_points r1
            else
              match r1 with
              | EmptyString => escaped
              | String c2 r2 =>
                  let b2 := N_of_ascii c2 in
                  if negb (continuation b2) then escaped
                  else if ((224 <=? b0) && (b0 <? 240))%N then
                    let c := ((b0 - 224) * 4096 + (b1 - 128) * 64 + (b2 - 128))%N in
                    if (2048 <=? c)%N && negb ((55296 <=? c) && (c <? 57344))%N
                    then c :: code_points r2 else escaped
                  else
                    match r2 with
                    | EmptyString => escaped
                    | String c3 r3 =>
                        let b3 := N_of_ascii c3 in
                        let c := ((b0 - 240) * 262144 + (b1 - 128) * 4096
                                  + (b2 - 128) * 64 + (b3 - 128))%N in
                        if continuation b3 && ((240 <=? b0) && (b0 <? 245))%N
                           && ((65536 <=? c) && (c <? 1114112))%N
                        then c :: code_points r3 else escaped
                    end
              end
        end
  end.

(** [unicodedata.decimal(c)], which is what [\d] and [int()] go by
    ([Py_UNICODE_TODECIMAL]): the value of a code point that is a decimal
    digit of some script (category Nd).  Which code points are depends on
    the Unicode version the interpreter was built with, so the table is an
    argument. *)
Definition UnicodeData := N -> option N.

Definition is_decimal (u : UnicodeData) (c : N) : bool :=
  match u c with
  | Some _ => true
  | None => false
  end.

(** The digit zero of every script of Unicode 14.0 (CPython 3.11); the
    nine code points after each are its digits one to nine. *)
Definition decimal_zeros_14 : list N :=
  [48; 1632; 1776; 1984; 2406; 2534; 2662; 2790; 2918; 3046; 3174; 3302; 3430;
   3558; 3664; 3792; 3872; 4160; 4240; 6112; 6160; 6470; 6608; 6784; 6800; 6992;
   7088; 7232; 7248; 42528; 43216; 43264; 43472; 43504; 43600; 44016; 65296;
   66720; 68912; 69734; 69872; 69942; 70096; 70384; 70736; 70864; 71248; 71360;
   71472; 71904; 72016; 72784; 73040; 73120; 92768; 92864; 93008; 120782; 120792;
   120802; 120812; 120822; 123200; 123632; 125264; 130032]%N.

Definition unicode_14 : UnicodeData :=
  fun c =>
    match List.find (fun z => ((z <=? c) && (c <? z + 10))%N) decimal_zeros_14 with
    | Some z => Some (c - z)%N
    | None => None
    end.

(** [c.isspace()], by which [str.strip()] and [str.split()] go. *)
Definition isspace (c : N) : bool :=
  (((9 <=? c) && (c <=? 13)) || ((28 <=? c) && (c <=? 32)) || (c =? 133)
   || (c =? 160) || (c =? 5760) || ((8192 <=? c) && (c <=? 8202))
   || (c =? 8232) || (c =? 8233) || (c =? 8239) || (c =? 8287) || (c =? 12288))%N.

(** [c.lower()] for ASCII letters. *)
Definition lower_char (c : ascii) : ascii :=
  let n := nat_of_ascii c in
  if (65 <=? n)%nat && (n <=? 90)%nat then ascii_of_nat (n + 32) else c.

Fixpoint lower (s : string) : string :=
  match s with
  | EmptyString => EmptyString
  | String c r => String (lower_char c) (lower r)
  end.

(** [s.strip() == ''], which is what [not text.strip()] tests: every
    character of [s] is white space. *)
Definition strip_is_empty (s : string) : bool := forallb isspace (code_points s).

(** [len(s.split())]: the number of white-space delimited tokens. *)
Fixpoint count_tokens_from (in_token : bool) (cs : list N) : nat :=
  match cs with
  | [] => 0%nat
  | c :: r =>
      if isspace c then count_tokens_from false r
      else if in_token then count_tokens_from true r
           else S (count_tokens_from true r)
  end.

Definition count_tokens (s : string) : nat := count_tokens_from false (code_points s).

(** [s.rfind(c)], with [None] for Python's [-1]. *)
Fixpoint rfind (c : ascii) (s : string) : option nat :=
  match s with
  | EmptyString => None
  | String a r =>
      match rfind c r with
      | Some i => Some (S i)
      | None => if Ascii.eqb a c then Some 0%nat else None
      end
  end.

(** [s.split(c)]. *)
Fixpoint split_on (c : ascii) (s : string) : list string :=
  match s with
  | EmptyString => [EmptyString]
  | String a r =>
      if Ascii.eqb a c then EmptyString :: split_on c r
      else match split_on c r with
           | h :: t => String a h :: t
           | [] => [String a EmptyString]
           end
  end.

(** [PurePosixPath(p).name]: the last component, where empty components
    and ["."] components are dropped by the path parser. *)
Definition is_component (s : string) : bool :=
  negb (String.eqb s "" || String.eqb s ".").

Definition name (p : string) : string :=
  List.last (List.filter is_component (split_on "/" p)) "".

(** The index at which [suffix] and [stem] cut the name:
    [i = name.rfind('.')], used when [0 < i < len(name) - 1]. *)
Definition suffix_index (nm : string) : option nat :=
  match rfind "." nm with
  | Some i =>
      if (0 <? Z.of_nat i) && (Z.of_nat i <? Z.of_nat (String.length nm) - 1)
      then Some i else None
  | None => None
  end.

Definition suffix (p : string) : string :=
  let nm := name p in
  match suffix_index nm with
  | Some i => substring i (String.length nm - i) nm
  | None => ""
  end.

Definition stem (p : string) : string :=
  let nm := name p in
  match suffix_index nm with
  | Some i => substring 0 i nm
  | None => nm
  end.

(** [re.search(r'\d+', s).group()]: the leftmost, longest run of decimal
    digits of any script, as its characters. *)
Fixpoint take_digits (u : UnicodeData) (cs : list N) : list N :=
  match cs with
  | [] => []
  | c :: r => if is_decimal u c then c :: take_digits u r else []
  end.

Fixpoint re_search_digits (u : UnicodeData) (cs : list N) : option (list N) :=
  match cs with
  | [] => None
  | c :: r => if is_decimal u c then Some (take_digits u cs) else re_search_digits u r
  end.

(** [int(ds)] on a run of decimal digits: each digit counts with its
    value, whatever its script.  CPython refuses runs of more than
    [sys.int_info.default_max_str_digits] digits with a [ValueError]. *)
Definition max_str_digits : nat := 4300.

Definition digit_value (u : UnicodeData) (c : N) : Z := Z.of_N (default 0%N (u c)).

Fixpoint decimal_value (u : UnicodeData) (acc : Z) (ds : list N) : Z :=
  match ds with
  | [] => acc
  | c :: r => decimal_value u (10 * acc + digit_value u c) r
  end.

Definition int_of_digits (u : UnicodeData) (ds : list N) : option Z :=
  if (max_str_digits <? length ds)%nat then None
  else Some (decimal_value u 0 ds).

(** [int(x)] for a binary64 [x]: truncation towards zero; NaN and the
    infinities raise. *)
Definition int_of_float (x : float) : option Z :=
  match Prim2SF x with
  | S754_zero _ => Some 0
  | S754_finite sign m e =>
      let magnitude :=
        if 0 <=? e then Z.pos m * 2 ^ e else Z.pos m / 2 ^ (- e) in
      Some (if sign then - magnitude else magnitude)
  | S754_infinity _ | S754_nan => None
  end.

(** [os.path.dirname(p) == '']: there is no ['/'] in [p]. *)
Definition dirname_is_empty (p : string) : bool :=
  match rfind "/" p with
  | Some _ => false
  | None => true
  end.

(** [f"{n:03d}"]: decimal, sign included in the width of three. *)
Definition format_03d (n : Z) : string :=
  let digits := NilZero.string_of_uint (N.to_uint (Z.abs_N n)) in
  let sign := if n <? 0 then "-" else "" in
  let width := (String.length sign + String.length digits)%nat in
  (sign ++ string_of_list_ascii (replicate (3 - width) "0"%char) ++ digits)%string.

End Py.

(** ** page_processor.py *)

Record PageText := { text_content : string }.

Record PageData := {
  page_number : Z;
  text : string;
  word_count : Z
}.

(** The JSON object the extractor model answers with, field by field;
    [None] is a field that is missing or not of the declared type. *)
Record ExtractorReply := {
  reply_page_number : option Z;
  reply_text : option string;
  reply_word_count : option Z
}.

(** [PageData.model_validate_json]: all three fields are required. *)
Definition model_validate (r : ExtractorReply) : option PageData :=
  match reply_page_number r, reply_text r, reply_word_count r with
  | Some n, Some t, Some w =>
      Some {| page_number := n; text := t; word_count := w |}
  | _, _, _ => None
  end.

(** The two ollama chat calls.  [None] stands for any exception raised by
    the call or while decoding its answer. *)
Record Ollama := {
  vision_chat : string -> option PageText;
  extractor_chat : string -> option ExtractorReply
}.

(** [PageProcessor.text2json].  Every exception is caught and turned into
    [None]. *)
Definition text2json (u : Py.UnicodeData) (o : Ollama) (page_text : PageText)
    (image_path : string) : option PageData :=
  let filename := Py.stem image_path in
  let page_number_match := Py.re_search_digits u (Py.code_points filename) in
  match (match page_number_match with
         | Some ds => Py.int_of_digits u ds
         | None => Some 0
         end) with
  | None => None
  | Some page_number' =>
      match extractor_chat o (text_content page_text) with
      | None => None
      | Some response =>
          match model_validate response with
          | None => None
          | Some page_data =>
              if page_number' >? 0
              then Some {| page_number := page_number';
                           text := text page_data;
                           word_count := word_count page_data |}
              else Some page_data
          end
      end
  end.

(** [PageProcessor.image2text]. *)
Definition image2text (o : Ollama) (image_path : string) : option PageText :=
  vision_chat o image_path.

(** [PageProcessor.process]. *)
Definition process (u : Py.UnicodeData) (o : Ollama) (image_path : string)
  : option PageData :=
  match image2text o image_path with
  | None => None
  | Some page_text => text2json u o page_text image_path
  end.

(** ** page_file_handler.py and main.py *)

Module Csv.

(** One line of [pages.csv], in the column order of [append_to_csv]. *)
Record Row := {
  page_number : Z;
  text : string;
  word_count : Z;
  file_path : string;
  processed_at : string;
  audio_path : string
}.

End Csv.

(** What loguru receives from the handler. *)
Inductive LogRecord :=
| InfoOutputFile (output_file : string)
| InfoNewImage (file_path : string)
| InfoProcessingPage (image_path : string)
| InfoStructuredData (page_data : Csv.Row)
| InfoAppending
| InfoAppended
| ErrorWritingCsv
| InfoSuccessfullyProcessed (image_path : string)
| ErrorProcessingPage (image_path : string)
| InfoProcessingExisting.

(** The world a handler runs in: [self.processor.process] and
    [time.strftime], each indexed by the number of pages the handler has
    handed to the processor before, so that a repeated call may answer
    differently. *)
Record World := {
  processor : nat -> string -> option PageData;
  strftime : nat -> string
}.

(** A [PageFileHandler] together with the CSV file it appends to.
    [csv] is the file's content below the header line; [calls] lists the
    image paths given to [processor.process], oldest first. *)
Record Handler := {
  output_file : string;
  processed_files : gset string;
  csv : list Csv.Row;
  calls : list string;
  log : list LogRecord
}.

Definition image_extensions : gset string :=
  {[ ".jpg"; ".jpeg"; ".png"; ".gif"; ".bmp"; ".tiff"; ".webp" ]}.

(** [PageFileHandler.__init__] on a CSV file with content [table]. *)
Definition new_handler (out : string) (table : list Csv.Row) : Handler :=
  {| output_file := out; processed_files := ∅; csv := table;
     calls := []; log := [InfoOutputFile out] |}.

Definition add_log (r : LogRecord) (h : Handler) : Handler :=
  {| output_file := output_file h; processed_files := processed_files h;
     csv := csv h; calls := calls h; log := log h ++ [r] |}.

(** [PageFileHandler.append_to_csv].  [os.makedirs('')] raises, so nothing
    is written when [output_file] has no directory part; the exception is
    logged and swallowed. *)
Definition append_to_csv (data : Csv.Row) (h : Handler) : Handler :=
  let h := add_log InfoAppending h in
  if Py.dirname_is_empty (output_file h) then add_log ErrorWritingCsv h
  else
    add_log InfoAppended
      {| output_file := output_file h; processed_files := processed_files h;
         csv := csv h ++ [data]; calls := calls h; log := log h |}.

(** [PageFileHandler.process_page].  A [None] from the processor makes
    [model_dump] raise, which the [except] clause logs. *)
Definition process_page (w : World) (image_path : string) (h : Handler) : Handler :=
  let n := length (calls h) in
  let h1 :=
    {| output_file := output_file h;
       processed_files := {[ image_path ]} ∪ processed_files h;
       csv := csv h;
       calls := calls h ++ [image_path];
       log := log h ++ [InfoProcessingPage image_path] |} in
  match processor w n image_path with
  | None => add_log (ErrorProcessingPage image_path) h1
  | Some page_data_obj =>
      let page_data :=
        {| Csv.page_number := page_number page_data_obj;
           Csv.text := text page_data_obj;
           Csv.word_count := word_count page_data_obj;
           Csv.file_path := image_path;
           Csv.processed_at := strftime w n;
           Csv.audio_path := "" |} in
      add_log (InfoSuccessfullyProcessed image_path)
        (append_to_csv page_data (add_log (InfoStructuredData page_data) h1))
  end.

Record FileSystemEvent := {
  is_directory : bool;
  src_path : string
}.

(** [PageFileHandler.on_created]. *)
Definition on_created (w : World) (event : FileSystemEvent) (h : Handler) : Handler :=
  if is_directory event then h
  else
    let file_path := src_path event in
    let file_ext := Py.lower (Py.suffix file_path) in
    if bool_decide (file_ext ∈ image_extensions)
       && bool_decide (file_path ∉ processed_files h)
    then process_page w file_path (add_log (InfoNewImage file_path) h)
    else h.

(** An entry produced by [Path(directory).rglob("*")]. *)
Record DirEntry := {
  entry_path : string;
  is_file : bool
}.

Definition scan_entry (w : World) (h : Handler) (e : DirEntry) : Handler :=
  if is_file e then
    let file_ext := Py.lower (Py.suffix (entry_path e)) in
    if bool_decide (file_ext ∈ image_extensions)
    then process_page w (entry_path e) h
    else h
  else h.

(** [process_existing_files] of main.py. *)
Definition process_existing_files (w : World) (listing : list DirEntry) (h : Handler)
  : Handler :=
  foldl (scan_entry w) (add_log InfoProcessingExisting h) listing.

(** The observer thread delivering creation events one after the other. *)
Definition watch (w : World) (events : list FileSystemEvent) (h : Handler) : Handler :=
  foldl (fun h e => on_created w e h) h events.

(** A run of [main] with [--process-existing]: a fresh handler on the CSV
    file as it is on disk, one scan of the directory, then the watcher. *)
Definition session (w : World) (out : string) (table : list Csv.Row)
    (listing : list DirEntry) (events : list FileSystemEvent) : Handler :=
  watch w events (process_existing_files w listing (new_handler out table)).

(** The rows of a table that belong to one source image. *)
Definition rows_for (p : string) (table : list Csv.Row) : list Csv.Row :=
  List.filter (fun r => String.eqb (Csv.file_path r) p) table.

(** How often a path was handed to the processor. *)
Definition times_processed (p : string) (h : Handler) : nat :=
  length (List.filter (String.eqb p) (calls h)).

(** ** pathlib, as text_to_speech.py, main.py and api.py use it *)

(** [not s]: the empty string is false. *)
Definition str_is_empty (s : string) : bool :=
  match s with
  | EmptyString => true
  | String _ _ => false
  end.

Module PyPath.

(** The root of a POSIX path: exactly two leading slashes are kept, one or
    three and more make [/]. *)
Definition root (p : string) : string :=
  match p with
  | String a r =>
      if Ascii.eqb a "/" then
        match r with
        | String b r2 =>
            if Ascii.eqb b "/" then
              match r2 with
              | String c _ => if Ascii.eqb c "/" then "/" else "//"
              | EmptyString => "//"
              end
            else "/"
        | EmptyString => "/"
        end
      else ""
  | EmptyString => ""
  end.

(** The components: empty ones and ["."] are dropped. *)
Definition parts (p : string) : list string :=
  List.filter Py.is_component (Py.split_on "/" p).

(** ['/'.join(l)]. *)
Fixpoint join (l : list string) : string :=
  match l with
  | [] => ""
  | [x] => x
  | x :: rest => (x ++ "/" ++ join rest)%string
  end.

(** [str(Path(p))]. *)
Definition str (p : string) : string :=
  match root p, parts p with
  | EmptyString, [] => "."
  | r, ps => (r ++ join ps)%string
  end.

Definition starts_with_slash (p : string) : bool :=
  match p with
  | String a _ => Ascii.eqb a "/"
  | EmptyString => false
  end.

Fixpoint ends_with_slash (p : string) : bool :=
  match p with
  | EmptyString => false
  | String a EmptyString => Ascii.eqb a "/"
  | String _ r => ends_with_slash r
  end.

(** [os.path.join(a, b)], by which [Path(a) / b] combines its segments. *)
Definition os_join (a b : string) : string :=
  if starts_with_slash b then b
  else if str_is_empty a || ends_with_slash a then (a ++ b)%string
  else (a ++ "/" ++ b)%string.

(** [str(Path(a) / b)]. *)
Definition div (a b : string) : string := str (os_join a b).

End PyPath.

(** ** text_to_speech.py *)

Module Df.

(** A cell of the [text] column of the frame [pd.read_csv] returns: NaN
    for an empty cell, a [str], or, when pandas has taken the whole column
    for numbers or booleans, a value that is neither. *)
Inductive Text :=
| NaN
| Str (s : string)
| NotStr.

(** A cell of the [page_number] column: an integer when pandas has read
    the column as int64 or uint64, otherwise (a column with a number
    beyond 64 bits, or with an empty cell) a [str] or a float. *)
Inductive PageNumber :=
| Int (n : Z)
| NotInt.

(** A row of the frame.  The audio column holds what the handler and the
    batch write there: nothing (read back as NaN, [None] here) or the path
    of a [.wav] file. *)
Record Row := {
  page_number : PageNumber;
  text : Text;
  word_count : Z;
  file_path : string;
  processed_at : string;
  audio_path : option string
}.

End Df.

(** A frame with its default integer index: row [i] carries label [i]. *)
Abbreviation DataFrame := (list Df.Row).

Definition set_audio_path (p : string) (r : Df.Row) : Df.Row :=
  {| Df.page_number := Df.page_number r; Df.text := Df.text r;
     Df.word_count := Df.word_count r; Df.file_path := Df.file_path r;
     Df.processed_at := Df.processed_at r; Df.audio_path := Some p |}.

(** [df.at[idx, "audio_path"] = p]. *)
Definition df_at_set_audio_path (idx : nat) (p : string) (df : DataFrame) : DataFrame :=
  match df !! idx with
  | Some r => <[ idx := set_audio_path p r ]> df
  | None => df
  end.

(** How one run of the llama-lfm2-audio binary ends. *)
Inductive RunResult :=
| Completed (returncode : Z) (output_exists : bool)
| TimeoutExpired
| OtherException.

(** The binary, indexed by the number of runs made before in this batch. *)
Definition Binary := nat -> string -> string -> RunResult.

(** [TTSProcessor.generate_audio]: the output path, or [""]. *)
Definition generate_audio (run : Binary) (n : nat) (text output_path : string) : string :=
  match run n text output_path with
  | Completed returncode output_exists =>
      if negb (returncode =? 0) then ""
      else if output_exists then output_path else ""
  | TimeoutExpired => ""
  | OtherException => ""
  end.

Inductive Printed :=
| PrintGeneratingFor (n_pages : nat)
| PrintSkipping (page_num : Df.PageNumber)
| PrintGenerating (page_num : Z)
| PrintCheck
| PrintNoAudioGenerated
| PrintGenerationComplete
| PrintCombining (n_files : nat)
| PrintWarningNotFound (audio_path : string)
| PrintAudiobookCreated.

(** One call of [generate_audio] made by the batch. *)
Record Submission := {
  sub_idx : nat;
  sub_text : string;
  sub_output_path : string;
  sub_result_path : string
}.

Record Batch := {
  df : DataFrame;
  submitted : list Submission;
  stdout : list Printed
}.

(** The exceptions of the loop body that no [try] encloses: they end the
    batch before [df.to_csv]. *)
Inductive BatchError :=
| TextNotStr      (* AttributeError: text.strip() on a value that is not a str *)
| PageNotInt.     (* ValueError: format code 'd' on a value that is not an int *)

(** The test [pd.isna(text) or not text.strip()], where it comes out
    true. *)
Definition no_text (row : Df.Row) : bool :=
  match Df.text row with
  | Df.NaN => true
  | Df.Str t => Py.strip_is_empty t
  | Df.NotStr => false
  end.

(** The body of the [for idx, row in df.iterrows()] loop. *)
Definition batch_step (run : Binary) (output_dir : string) (b : Batch)
    (idx : nat) (row : Df.Row) : BatchError + Batch :=
  let page_num := Df.page_number row in
  let skipped :=
    {| df := df b; submitted := submitted b;
       stdout := stdout b ++ [PrintSkipping page_num] |} in
  match Df.text row with
  | Df.NaN => inr skipped
  | Df.NotStr => inl TextNotStr
  | Df.Str text =>
      if Py.strip_is_empty text then inr skipped
      else
        match page_num with
        | Df.NotInt => inl PageNotInt
        | Df.Int n =>
            let audio_filename := ("page_" ++ Py.format_03d n ++ ".wav")%string in
            let audio_path := PyPath.div output_dir audio_filename in
            let result_path :=
              generate_audio run (length (submitted b)) text audio_path in
            let call :=
              {| sub_idx := idx; sub_text := text; sub_output_path := audio_path;
                 sub_result_path := result_path |} in
            if negb (str_is_empty result_path) then
              inr {| df := df_at_set_audio_path idx audio_path (df b);
                     submitted := submitted b ++ [call];
                     stdout := stdout b ++ [PrintGenerating n; PrintCheck] |}
            else
              inr {| df := df b;
                     submitted := submitted b ++ [call];
                     stdout := stdout b ++ [PrintGenerating n; PrintNoAudioGenerated] |}
        end
  end.

(** The loop: the state it ends in, and the exception that ended it if one
    did. *)
Fixpoint batch_loop (run : Binary) (output_dir : string) (b : Batch)
    (idx : nat) (rows : list Df.Row) : Batch * option BatchError :=
  match rows with
  | [] => (b, None)
  | row :: rest =>
      match batch_step run output_dir b idx row with
      | inl e => (b, Some e)
      | inr b' => batch_loop run output_dir b' (S idx) rest
      end
  end.

(** [TTSProcessor.text_to_speech_batch].  The second component is the
    exception raised, or what the function returns: Python's [None], here
    [tt].  The first is the state at that point; its frame is what
    [df.to_csv] writes back, which only happens when the function
    returns. *)
Definition text_to_speech_batch (run : Binary) (csv_frame : DataFrame)
    (output_dir : string) : Batch * (BatchError + unit) :=
  let b0 := {| df := csv_frame; submitted := [];
               stdout := [PrintGeneratingFor (length csv_frame)] |} in
  match batch_loop run output_dir b0 0 csv_frame with
  | (b, Some e) => (b, inl e)
  | (b, None) =>
      ({| df := df b; submitted := submitted b;
          stdout := stdout b ++ [PrintGenerationComplete] |}, inr tt)
  end.

(** The counts a summary of a batch would hold. *)
Definition attempted (b : Batch) : nat := length (submitted b).

Definition succeeded (b : Batch) : nat :=
  length (List.filter (fun c => negb (str_is_empty (sub_result_path c))) (submitted b)).

Definition failed (b : Batch) : nat :=
  length (List.filter (fun c => str_is_empty (sub_result_path c)) (submitted b)).

(** *** combine_audiobook *)

(** A tensor of shape (channels, samples): one list of samples per channel. *)
Definition Tensor := list (list float).

Definition shape0 (t : Tensor) : nat := length t.

Definition shape1 (t : Tensor) : nat :=
  match t with
  | [] => 0%nat
  | channel :: _ => length channel
  end.

Inductive CombineError :=
| NoAudioFilesFound     (* ValueError("No audio files found in CSV") *)
| SoundFileError        (* sf.read raised *)
| FloatToIntError       (* int() of NaN or an infinity *)
| ZerosNegativeSize     (* torch.zeros with a negative dimension *)
| ZerosSizeOverflow     (* torch.zeros with a dimension beyond int64 *)
| CatEmptyList          (* torch.cat of an empty list *)
| CatSizeMismatch.      (* torch.cat of tensors with different channel counts *)

(** What [combine_audiobook] relies on besides its arguments: pandas'
    sort, the file system, soundfile and the resampler.
    [sort_values] uses pandas' default algorithm, which is not stable:
    rows with equal keys come out in an order of its choosing.
    [tie_rank keys i] is the place it gives, among the rows with the same
    key, to the row labelled [i] when the key column is [keys].
    [sf_read] returns the wave form already transposed to
    (channels, samples), with the channel dimension added for mono files. *)
Record AudioEnv := {
  tie_rank : list Df.PageNumber -> nat -> nat;
  path_exists : string -> bool;
  sf_read : string -> option (Tensor * Z);
  resample : Z -> Z -> Tensor -> Tensor
}.

Definition sample_rate : Z := 24000.

Definition int64_max : Z := 9223372036854775807.

(** [torch.zeros(channels, n)].  Running out of memory is left out. *)
Definition torch_zeros (channels : nat) (n : Z) : CombineError + Tensor :=
  if n <? 0 then inl ZerosNegativeSize
  else if int64_max <? n then inl ZerosSizeOverflow
  else inr (replicate channels (replicate (Z.to_nat n) 0%float)).

Fixpoint cat_channels (a b : Tensor) : Tensor :=
  match a, b with
  | ca :: a', cb :: b' => (ca ++ cb) :: cat_channels a' b'
  | _, _ => []
  end.

(** [torch.cat(ts, dim=1)]. *)
Fixpoint torch_cat (ts : list Tensor) : CombineError + Tensor :=
  match ts with
  | [] => inl CatEmptyList
  | [t] => inr t
  | t :: rest =>
      match torch_cat rest with
      | inl e => inl e
      | inr r =>
          if (shape0 t =? shape0 r)%nat then inr (cat_channels t r)
          else inl CatSizeMismatch
      end
  end.

(** An entry of the list [waveforms], tagged with where it comes from. *)
Inductive Piece :=
| PageClip (idx : nat) (row : Df.Row) (waveform : Tensor)
| Silence (waveform : Tensor).

Definition piece_tensor (p : Piece) : Tensor :=
  match p with
  | PageClip _ _ t => t
  | Silence t => t
  end.

Definition is_silence (p : Piece) : bool :=
  match p with
  | PageClip _ _ _ => false
  | Silence _ => true
  end.

(** The rows behind the clips of a list of pieces, in order. *)
Fixpoint clips (ps : list Piece) : list (nat * Df.Row) :=
  match ps with
  | [] => []
  | PageClip idx row _ :: rest => (idx, row) :: clips rest
  | Silence _ :: rest => clips rest
  end.

(** [df.iterrows()]: rows with their index labels. *)
Fixpoint iterrows_from (idx : nat) (frame : DataFrame) : list (nat * Df.Row) :=
  match frame with
  | [] => []
  | row :: rest => (idx, row) :: iterrows_from (S idx) rest
  end.

Definition iterrows (frame : DataFrame) : list (nat * Df.Row) := iterrows_from 0 frame.

Definition notna (r : nat * Df.Row) : bool :=
  match Df.audio_path r.2 with
  | Some _ => true
  | None => false
  end.

(** The order of two integer keys; keys that are not integers are not
    compared. *)
Definition page_lt (a b : Df.PageNumber) : bool :=
  match a, b with
  | Df.Int x, Df.Int y => x <? y
  | _, _ => false
  end.

(** [sort_values("page_number")]: ascending keys, and [rank] among rows
    the key does not tell apart. *)
Definition sorts_before (rank : nat -> nat) (x y : nat * Df.Row) : bool :=
  if page_lt (Df.page_number x.2) (Df.page_number y.2) then true
  else if page_lt (Df.page_number y.2) (Df.page_number x.2) then false
  else (rank x.1 <=? rank y.1)%nat.

Fixpoint insert_by_page (rank : nat -> nat) (x : nat * Df.Row)
    (l : list (nat * Df.Row)) : list (nat * Df.Row) :=
  match l with
  | [] => [x]
  | y :: l' =>
      if sorts_before rank x y then x :: l
      else y :: insert_by_page rank x l'
  end.

Definition sort_values (env : AudioEnv) (l : list (nat * Df.Row))
  : list (nat * Df.Row) :=
  let rank := tie_rank env (map (fun r => Df.page_number r.2) l) in
  foldr (insert_by_page rank) [] l.

(** [df[df["audio_path"].notna()].sort_values("page_number")]. *)
Definition audio_rows (env : AudioEnv) (frame : DataFrame) : list (nat * Df.Row) :=
  sort_values env (List.filter notna (iterrows frame)).

(** [int(silence_duration * sample_rate)]. *)
Definition silence_samples (silence_duration : float) : option Z :=
  Py.int_of_float (PrimFloat.mul silence_duration 24000%float).

(** The wave form of one file after the optional resampling. *)
Definition load_waveform (env : AudioEnv) (audio_path : string) : option Tensor :=
  match sf_read env audio_path with
  | None => None
  | Some (audio, sr) =>
      Some (if negb (sr =? sample_rate) then resample env sr sample_rate audio
            else audio)
  end.

(** The loop [for idx, row in audio_rows.iterrows()], with [n_rows] for
    [len(audio_rows)].  It yields what was printed and either the exception
    that ended the loop or the list [waveforms]. *)
Fixpoint load_loop (env : AudioEnv) (silence_duration : float) (n_rows : nat)
    (rows : list (nat * Df.Row)) : list Printed * (CombineError + list Piece) :=
  match rows with
  | [] => ([], inr [])
  | (idx, row) :: rest =>
      let audio_path := default "" (Df.audio_path row) in
      if negb (path_exists env audio_path) then
        let '(out, r) := load_loop env silence_duration n_rows rest in
        (PrintWarningNotFound audio_path :: out, r)
      else
        match load_waveform env audio_path with
        | None => ([], inl SoundFileError)
        | Some waveform =>
            if Z.of_nat idx <? Z.of_nat n_rows - 1 then
              match silence_samples silence_duration with
              | None => ([], inl FloatToIntError)
              | Some n =>
                  match torch_zeros (shape0 waveform) n with
                  | inl e => ([], inl e)
                  | inr silence =>
                      let '(out, r) := load_loop env silence_duration n_rows rest in
                      (out,
                       match r with
                       | inl e => inl e
                       | inr ps => inr (PageClip idx row waveform :: Silence silence :: ps)
                       end)
                  end
              end
            else
              let '(out, r) := load_loop env silence_duration n_rows rest in
              (out,
               match r with
               | inl e => inl e
               | inr ps => inr (PageClip idx row waveform :: ps)
               end)
        end
  end.

(** The list [waveforms] as it stands when the loop is over. *)
Definition waveforms (env : AudioEnv) (frame : DataFrame) (silence_duration : float)
  : list Printed * (CombineError + list Piece) :=
  let rows := audio_rows env frame in
  if (length rows =? 0)%nat then ([], inl NoAudioFilesFound)
  else
    let '(out, r) := load_loop env silence_duration (length rows) rows in
    (PrintCombining (length rows) :: out, r).

(** [TTSProcessor.combine_audiobook]: what was printed, and either the
    exception raised or the wave form written to [output_path]. *)
Definition combine_audiobook (env : AudioEnv) (frame : DataFrame)
    (silence_duration : float) : list Printed * (CombineError + Tensor) :=
  let '(out, r) := waveforms env frame silence_duration in
  match r with
  | inl e => (out, inl e)
  | inr ps =>
      match torch_cat (map piece_tensor ps) with
      | inl e => (out, inl e)
      | inr combined_waveform => (out ++ [PrintAudiobookCreated], inr combined_waveform)
      end
  end.

(** The selected rows whose audio file is there. *)
Definition on_disk (env : AudioEnv) (r : nat * Df.Row) : bool :=
  path_exists env (default "" (Df.audio_path r.2)).

Definition count_silence (ps : list Piece) : nat :=
  length (List.filter is_silence ps).

(** ** main.py: the command line entry point *)

Record MainArgs := {
  arg_dir : string;
  arg_extractor_model : string;
  arg_image_model : string;
  arg_process_existing : bool;
  arg_output_dir : option string;
  arg_audio_model : option string;
  arg_audio_mmproj : option string;
  arg_audio_decoder : option string;
  arg_voice_description : string;
  arg_generate_audio : bool;
  arg_combine_audiobook : bool
}.

(** What [main] does, as the calls it makes into the rest of the package,
    in order, up to its return (or for good, in [WatchDirectory]). *)
Inductive MainStep :=
| MkdirOutput (output_dir : string)
| NewPageProcessor (extractor_model image_model : string)
| NewPageFileHandler (csv_path : string)
| ProcessExistingFiles (directory : string)
| ErrorAudioModelsRequired
| NewTTSProcessor (model_path mmproj_path audiodecoder_path voice_description : string)
| TextToSpeechBatch (csv_path output_dir : string)
| CombineAudiobook (csv_path output_path : string)
| InfoExiting
| WatchDirectory (directory : string).

(** The block under [# Set up file watcher]. *)
Definition main_watcher (a : MainArgs) : list MainStep :=
  if arg_process_existing a
     && negb (arg_generate_audio a || arg_combine_audiobook a)
  then [WatchDirectory (PyPath.str (arg_dir a))]
  else [].

(** [main] of main.py, for a run in which no call raises. *)
Definition main (a : MainArgs) : list MainStep :=
  let dir := arg_dir a in
  let output_dir := default dir (arg_output_dir a) in
  let csv_path := PyPath.div dir "pages.csv" in
  [MkdirOutput (PyPath.str output_dir);
   NewPageProcessor (arg_extractor_model a) (arg_image_model a);
   NewPageFileHandler csv_path]
  ++ (if arg_process_existing a then [ProcessExistingFiles (PyPath.str dir)] else [])
  ++ (if arg_generate_audio a || arg_combine_audiobook a then
        match arg_audio_model a, arg_audio_mmproj a, arg_audio_decoder a with
        | Some audio_model, Some audio_mmproj, Some audio_decoder =>
            [NewTTSProcessor (PyPath.str audio_model) (PyPath.str audio_mmproj)
               (PyPath.str audio_decoder) (arg_voice_description a);
             TextToSpeechBatch csv_path (PyPath.div output_dir "audio")]
            ++ (if arg_combine_audiobook a
                then [CombineAudiobook csv_path (PyPath.div output_dir "audiobook.wav")]
                else [])
            ++ (if negb (arg_process_existing a) then [InfoExiting]
                else main_watcher a)
        | _, _, _ => [ErrorAudioModelsRequired]
        end
      else main_watcher a).

(** ** api.py: the extraction endpoint on a directory *)

Definition ALLOWED_EXTENSIONS : gset string :=
  {[ ".png"; ".jpg"; ".jpeg"; ".gif"; ".bmp"; ".webp" ]}.

(** [allowed_file]. *)
Definition allowed_file (filename : string) : bool :=
  bool_decide (Py.lower (Py.suffix filename) ∈ ALLOWED_EXTENSIONS).

(** One turn of the loop over [dir_path.rglob("*")] in [extract_text]:
    the handler and [processed_count]. *)
Definition extract_entry (w : World) (st : Handler * nat) (e : DirEntry)
  : Handler * nat :=
  if is_file e && allowed_file (entry_path e)
  then (process_page w (entry_path e) st.1, S st.2)
  else st.

(** The directory branch of [extract_text], for a JSON body and a
    processor that could be set up.  [directory] is [None] when the body
    has no string there; [existing] is the content of
    [<directory>/pages.csv] before the call, [None] if there is no such
    file.  Status 500 when [Path(directory)] raises, 400 for an empty
    name, 404 when the directory does not exist; otherwise a new handler on
    the file and one pass over the listing.  [pd.read_csv] then needs the
    file to be there, or the answer is 500 again; the handler and
    [processed_count] are what the 200 response is made from. *)
Definition extract_text_directory (w : World) (directory : option string)
    (directory_exists : bool) (existing : option (list Csv.Row))
    (listing : list DirEntry) : Z + Handler * nat :=
  match directory with
  | None => inl 500
  | Some directory =>
      if str_is_empty directory then inl 400
      else if negb directory_exists then inl 404
      else
        let csv_path := PyPath.div directory "pages.csv" in
        let '(handler, processed_count) :=
          foldl (extract_entry w) (new_handler csv_path (default [] existing), 0%nat)
            listing in
        match existing, csv handler with
        | None, [] => inl 500
        | _, _ => inr (handler, processed_count)
        end
  end.

(** ** Vocabulary of the statements *)

(** A handler world whose processor is [PageProcessor.process]. *)
Definition ollama_world (u : Py.UnicodeData) (o : Ollama) (clock : nat -> string)
  : World :=
  {| processor := fun _ => process u o; strftime := clock |}.

(** The page number the resolution policy prescribes: the value of the
    first run of digits of the stem when there is one and it is positive,
    otherwise the number [from_reply] the extractor answered. *)
Definition resolved_page_number (u : Py.UnicodeData) (image_path : string)
    (from_reply : Z) : Z :=
  match Py.re_search_digits u (Py.code_points (Py.stem image_path)) with
  | Some ds =>
      if Py.decimal_value u 0 ds >? 0 then Py.decimal_value u 0 ds else from_reply
  | None => from_reply
  end.

(** [added] is what a session has appended so far: at most one row per
    path, and only for paths the handler remembers. *)
Definition session_invariant (table : list Csv.Row) (h : Handler) (added : list Csv.Row)
  : Prop :=
  csv h = table ++ added /\
  (forall p, (length (rows_for p added) <= 1)%nat) /\
  (forall p, rows_for p added <> [] -> p ∈ processed_files h).

(** A row with text to speak: its text cell is a [str] that is not
    blank. *)
Definition has_text (row : Df.Row) : bool :=
  match Df.text row with
  | Df.Str t => negb (Py.strip_is_empty t)
  | _ => false
  end.

(** The exception the loop body of the batch raises on a row, if any: a
    text cell that is neither NaN nor a [str], or text to speak on a page
    whose number is not an integer. *)
Definition raises (row : Df.Row) : option BatchError :=
  match Df.text row with
  | Df.NaN => None
  | Df.NotStr => Some TextNotStr
  | Df.Str t =>
      if Py.strip_is_empty t then None
      else match Df.page_number row with
           | Df.Int _ => None
           | Df.NotInt => Some PageNotInt
           end
  end.

(** The rows before the first one on which the loop body raises. *)
Fixpoint reached (rows : list Df.Row) : list Df.Row :=
  match rows with
  | [] => []
  | row :: rest =>
      match raises row with
      | Some _ => []
      | None => row :: reached rest
      end
  end.

(** The index labels of the rows with text, in frame order. *)
Definition text_indices (idx : nat) (rows : list Df.Row) : list nat :=
  map fst (List.filter (fun r => has_text r.2) (iterrows_from idx rows)).

(** The table a batch leaves on disk: the frame it saved if it returned,
    the frame it had read if it raised. *)
Definition csv_after (frame : DataFrame) (r : Batch * (BatchError + unit)) : DataFrame :=
  match r.2 with
  | inr _ => df r.1
  | inl _ => frame
  end.

(** [word_count] is the number of white-space delimited tokens of [text],
    as the data model defines it. *)
Definition word_count_consistent (row : Df.Row) : Prop :=
  match Df.text row with
  | Df.NaN => Df.word_count row = 0
  | Df.Str t => Df.word_count row = Z.of_nat (Py.count_tokens t)
  | Df.NotStr => False
  end.

(** A page number that is an integer. *)
Definition int_page (row : Df.Row) : Prop :=
  exists n, Df.page_number row = Df.Int n.

(** Ascending page numbers. *)
Definition page_le (a b : nat * Df.Row) : Prop :=
  exists x y, Df.page_number a.2 = Df.Int x /\ Df.page_number b.2 = Df.Int y /\ x <= y.

(** The order the specification asks for: ascending page number, rows with
    the same page number by source path. *)
Definition spec_order (a b : nat * Df.Row) : Prop :=
  exists x y, Df.page_number a.2 = Df.Int x /\ Df.page_number b.2 = Df.Int y /\
    (x < y \/ (x = y /\ String.leb (Df.file_path a.2) (Df.file_path b.2) = true)).

Definition warning_for (r : nat * Df.Row) : Printed :=
  PrintWarningNotFound (default "" (Df.audio_path r.2)).

Definition not_on_disk (env : AudioEnv) (r : nat * Df.Row) : bool :=
  negb (on_disk env r).

(** Whether the loop appends silence after the clip of a row: the row's
    index label, not its position in the selection, is compared with
    [len(audio_rows) - 1]. *)
Definition silence_follows (env : AudioEnv) (n_rows : nat) (r : nat * Df.Row) : bool :=
  on_disk env r && (Z.of_nat r.1 <? Z.of_nat n_rows - 1).

(** The extension test of [on_created] and [process_existing_files]. *)
Definition has_image_extension (p : string) : bool :=
  bool_decide (Py.lower (Py.suffix p) ∈ image_extensions).

(** The entries of a directory listing that [process_existing_files] hands
    to [process_page]. *)
Definition image_file (e : DirEntry) : bool :=
  is_file e && has_image_extension (entry_path e).

(** The row [process_page] builds at the call numbered [n], if the
    processor returns a page. *)
Definition stored_row (w : World) (n : nat) (p : string) : option Csv.Row :=
  match processor w n p with
  | Some pd =>
      Some {| Csv.page_number := page_number pd; Csv.text := text pd;
              Csv.word_count := word_count pd; Csv.file_path := p;
              Csv.processed_at := strftime w n; Csv.audio_path := "" |}
  | None => None
  end.

(** The rows of the calls numbered [n], [n+1], ... in call order. *)
Fixpoint rows_of_calls_from (w : World) (n : nat) (ps : list string) : list Csv.Row :=
  match ps with
  | [] => []
  | p :: rest => option_list (stored_row w n p) ++ rows_of_calls_from w (S n) rest
  end.

Definition rows_of_calls (w : World) (ps : list string) : list Csv.Row :=
  rows_of_calls_from w 0 ps.

(** What a handler keeps true from its creation on: the remembered paths
    are those handed to the processor, and the table has grown by the rows
    of the successful calls, or not at all when the CSV path has no
    directory part. *)
Definition handler_invariant (w : World) (table : list Csv.Row) (h : Handler) : Prop :=
  processed_files h = list_to_set (calls h) /\
  Forall (fun p => has_image_extension p = true) (calls h) /\
  csv h = table ++ (if Py.dirname_is_empty (output_file h) then []
                    else rows_of_calls w (calls h)).

(** The audio file [text_to_speech_batch] chooses for a page number:
    [str(Path(output_dir) / f"page_{page_num:03d}.wav")]. *)
Definition audio_file_for (output_dir : string) (page_num : Z) : string :=
  PyPath.div output_dir ("page_" ++ Py.format_03d page_num ++ ".wav")%string.

(** A run of the binary that [generate_audio] counts as a success: exit
    code 0 and the output file in place. *)
Definition binary_succeeds (r : RunResult) : bool :=
  match r with
  | Completed returncode output_exists => (returncode =? 0) && output_exists
  | TimeoutExpired | OtherException => false
  end.

(** [r'] is [r] with at most the audio column rewritten. *)
Definition audio_update (r r' : Df.Row) : Prop :=
  r' = r \/ exists p, r' = set_audio_path p r.

(** Reading a (possibly signed, zero-padded) decimal back. *)
Definition parse_decimal (s : string) : option Z :=
  match s with
  | String "-" r =>
      (fun u => - Z.of_N (N.of_uint u)) <$> NilEmpty.uint_of_string r
  | _ => (fun u => Z.of_N (N.of_uint u)) <$> NilEmpty.uint_of_string s
  end.

(** The shape of the list [waveforms]: a silence buffer only ever comes
    right after a clip, and is [torch.zeros] of that clip's channel count
    and [k] samples. [prev] is the clip just before, if the previous entry
    is a clip. *)
Fixpoint gaps_follow_clips (k : Z) (prev : option Tensor) (ps : list Piece) : Prop :=
  match ps with
  | [] => True
  | PageClip _ _ w :: rest => gaps_follow_clips k (Some w) rest
  | Silence s :: rest =>
      match prev with
      | Some w =>
          0 <= k /\
          s = replicate (shape0 w) (replicate (Z.to_nat k) 0%float) /\
          gaps_follow_clips k None rest
      | None => False
      end
  end.

(** A number of samples [torch.zeros] makes a buffer of. *)
Definition buffer_size (k : Z) : Prop := 0 <= k <= int64_max.

(** A [silence_duration] the loop cannot turn into a buffer:
    [int(silence_duration * 24000)] does not exist (NaN, an infinity), is
    negative, or is beyond int64. *)
Definition bad_silence_duration (d : float) : Prop :=
  match silence_samples d with
  | Some k => ~ buffer_size k
  | None => True
  end.

(** A row that has an audio path whose file is there. *)
Definition audio_on_disk (env : AudioEnv) (row : Df.Row) : Prop :=
  exists p, Df.audio_path row = Some p /\ path_exists env p = true.

(** Strictly ascending integer page numbers. *)
Definition page_before (a b : Df.Row) : Prop :=
  exists x y, Df.page_number a = Df.Int x /\ Df.page_number b = Df.Int y /\ x < y.

(** The rows [combine_audiobook] can use: selected, and on disk. *)
Definition usable (env : AudioEnv) (r : nat * Df.Row) : bool :=
  notna r && on_disk env r.


(** ** Concrete scenarios *)

(** The vision model reads "Hello"; the extractor finds page number 7. *)
Definition demo_ollama : Ollama :=
  {| vision_chat := fun _ => Some {| text_content := "Hello" |};
     extractor_chat := fun _ =>
       Some {| reply_page_number := Some 7; reply_text := Some "Hello";
               reply_word_count := Some 1 |} |}.

(** The extractor finds no page number and answers 0, as it is asked
    to. *)
Definition no_number_ollama : Ollama :=
  {| vision_chat := fun _ => Some {| text_content := "Hello" |};
     extractor_chat := fun _ =>
       Some {| reply_page_number := Some 0; reply_text := Some "Hello";
               reply_word_count := Some 1 |} |}.

(** The extractor's reply has no page number at all. *)
Definition incomplete_ollama : Ollama :=
  {| vision_chat := fun _ => Some {| text_content := "Hello" |};
     extractor_chat := fun _ =>
       Some {| reply_page_number := None; reply_text := Some "Hello";
               reply_word_count := Some 1 |} |}.

Definition demo_clock : nat -> string := fun _ => "2025-01-01 12:00:00".

Definition demo_world : World := ollama_world Py.unicode_14 demo_ollama demo_clock.

(** A world in which extraction always fails. *)
Definition failing_world : World :=
  {| processor := fun _ _ => None; strftime := demo_clock |}.

(** A world in which only the first extraction fails. *)
Definition first_call_fails : World :=
  {| processor := fun n p =>
       if (n =? 0)%nat then None else process Py.unicode_14 demo_ollama p;
     strftime := demo_clock |}.

Definition page_01 : string := "book/page_01.jpg".

Definition page_02 : string := "book/page_02.jpg".

Definition page_01_created : FileSystemEvent :=
  {| is_directory := false; src_path := page_01 |}.

Definition page_01_entry : DirEntry :=
  {| entry_path := page_01; is_file := true |}.


(** ARABIC-INDIC DIGIT THREE (U+0663) and NO-BREAK SPACE (U+00A0) in
    UTF-8. *)
Definition arabic_three : string :=
  String (ascii_of_nat 217) (String (ascii_of_nat 163) EmptyString).

Definition no_break_space : string :=
  String (ascii_of_nat 194) (String (ascii_of_nat 160) EmptyString).

(** The binary always succeeds. *)
Definition always_ok : Binary := fun _ _ _ => Completed 0 true.

(** The third run of the binary times out. *)
Definition third_run_fails : Binary :=
  fun n _ _ => if (n =? 2)%nat then TimeoutExpired else Completed 0 true.

(** A row of a frame whose columns pandas has read as the handler wrote
    them: integer page numbers, and text that is a [str] or missing. *)
Definition df_row (n : Z) (t : option string) (wc : Z) (src : string)
    (audio : option string) : Df.Row :=
  {| Df.page_number := Df.Int n;
     Df.text := match t with Some s => Df.Str s | None => Df.NaN end;
     Df.word_count := wc; Df.file_path := src;
     Df.processed_at := "2025-01-01 12:00:00"; Df.audio_path := audio |}.

(** Five pages with text, none with audio yet. *)
Definition five_pages : DataFrame :=
  [df_row 1 (Some "one") 1 "book/page_01.jpg" None;
   df_row 2 (Some "two") 1 "book/page_02.jpg" None;
   df_row 3 (Some "three") 1 "book/page_03.jpg" None;
   df_row 4 (Some "four") 1 "book/page_04.jpg" None;
   df_row 5 (Some "five") 1 "book/page_05.jpg" None].

(** A table whose every text is a number: pandas reads the column as
    integers. *)
Definition numeric_text : DataFrame :=
  [{| Df.page_number := Df.Int 1; Df.text := Df.NotStr; Df.word_count := 1;
      Df.file_path := "book/page_01.jpg"; Df.processed_at := "2025-01-01 12:00:00";
      Df.audio_path := None |}].

(** Ties come out of the sort in table order. *)
Definition table_order : list Df.PageNumber -> nat -> nat := fun _ i => i.

(** Every file is there and holds two mono samples at 24 kHz. *)
Definition all_present : AudioEnv :=
  {| tie_rank := table_order;
     path_exists := fun _ => true;
     sf_read := fun _ => Some ([[0.5%float; 0.25%float]], 24000);
     resample := fun _ _ t => t |}.


(** The file of page 2 has been deleted. *)
Definition page_2_deleted : AudioEnv :=
  {| tie_rank := table_order;
     path_exists := fun p => negb (String.eqb p "book/audio/page_002.wav");
     sf_read := fun _ => Some ([[0.5%float; 0.25%float]], 24000);
     resample := fun _ _ t => t |}.

(** A silence of 1/8192 s: two samples at 24 kHz. *)
Definition short_silence : float := 0x1p-13%float.

(** Two images both resolved to page 1; they share one audio file name. *)
Definition b_1 : Df.Row :=
  df_row 1 (Some "Hello") 1 "book/b_1.jpg" (Some "book/audio/page_001.wav").

Definition a_1 : Df.Row :=
  df_row 1 (Some "World") 1 "book/a_1.jpg" (Some "book/audio/page_001.wav").

Definition two_page_ones : DataFrame := [b_1; a_1].

Definition two_page_ones_waveforms : list Piece :=
  [PageClip 0 b_1 [[0.5%float; 0.25%float]];
   Silence [[0%float; 0%float]];
   PageClip 1 a_1 [[0.5%float; 0.25%float]]].

(** Pages 1 to 3, each with its audio path recorded. *)
Definition three_pages : DataFrame :=
  [df_row 1 (Some "one") 1 "book/page_01.jpg" (Some "book/audio/page_001.wav");
   df_row 2 (Some "two") 1 "book/page_02.jpg" (Some "book/audio/page_002.wav");
   df_row 3 (Some "three") 1 "book/page_03.jpg" (Some "book/audio/page_003.wav")].

Definition three_pages_waveforms : list Piece :=
  [PageClip 0 (df_row 1 (Some "one") 1 "book/page_01.jpg"
                 (Some "book/audio/page_001.wav")) [[0.5%float; 0.25%float]];
   Silence [[0%float; 0%float]];
   PageClip 1 (df_row 2 (Some "two") 1 "book/page_02.jpg"
                 (Some "book/audio/page_002.wav")) [[0.5%float; 0.25%float]];
   Silence [[0%float; 0%float]];
   PageClip 2 (df_row 3 (Some "three") 1 "book/page_03.jpg"
                 (Some "book/audio/page_003.wav")) [[0.5%float; 0.25%float]]].

(** Page 1 is blank and has no audio; pages 2 and 3 have theirs. *)
Definition blank_first_page : DataFrame :=
  [df_row 1 None 0 "book/page_01.jpg" None;
   df_row 2 (Some "two") 1 "book/page_02.jpg" (Some "book/audio/page_002.wav");
   df_row 3 (Some "three") 1 "book/page_03.jpg" (Some "book/audio/page_003.wav")].

(** [--dir book --output-dir out --process-existing --combine-audiobook]
    with the three model files. *)
Definition combine_args : MainArgs :=
  {| arg_dir := "book"; arg_extractor_model := "extract"; arg_image_model := "vision";
     arg_process_existing := true; arg_output_dir := Some "out";
     arg_audio_model := Some "models/audio.gguf";
     arg_audio_mmproj := Some "models/mmproj.gguf";
     arg_audio_decoder := Some "models/decoder.gguf";
     arg_voice_description := "A clear, neutral narrator voice with excellent quality.";
     arg_generate_audio := false; arg_combine_audiobook := true |}.

(** ** Properties of page-number resolution *)

Example stem_page_01 : Py.stem "books/moby/page_01.jpg" = "page_01".
Proof. reflexivity. Qed.

Example suffix_upper : Py.lower (Py.suffix "scan/IMG.0042.JPG") = ".jpg".
Proof. reflexivity. Qed.

(** The first run is the "2" of "v2". *)
Example digits_first_run :
  Py.re_search_digits Py.unicode_14 (Py.code_points (Py.stem "scan/v2_page_017.png"))
  = Some [50%N].
Proof. reflexivity. Qed.

(** Two bytes, one character, which is a digit and white space to
    nobody. *)
Example arabic_three_is_a_digit :
  Py.code_points arabic_three = [1635%N] /\
  Py.unicode_14 1635%N = Some 3%N /\
  Py.strip_is_empty arabic_three = false.
Proof. repeat split. Qed.

Example no_break_space_is_blank :
  Py.code_points no_break_space = [160%N] /\ Py.strip_is_empty no_break_space = true.
Proof. split; reflexivity. Qed.

Lemma text2json_page_number u o page_text image_path reply page_data :
  extractor_chat o (text_content page_text) = Some reply ->
  text2json u o page_text image_path = Some page_data ->
  exists n, reply_page_number reply = Some n /\
    page_number page_data = resolved_page_number u image_path n.
Proof.
  intros Hchat. unfold text2json, resolved_page_number. rewrite Hchat.
  unfold model_validate.
  destruct (reply_page_number reply) as [n|]; simpl.
  2:{ destruct (Py.re_search_digits _ _) as [ds|]; [destruct (Py.int_of_digits u ds)|];
      discriminate. }
  destruct (reply_text reply), (reply_word_count reply);
    try (destruct (Py.re_search_digits _ _) as [ds|]; [destruct (Py.int_of_digits u ds)|];
         discriminate).
  intros H. exists n. split; [reflexivity|]. revert H.
  destruct (Py.re_search_digits _ _) as [ds|].
  - unfold Py.int_of_digits. destruct (_ <? _)%nat; [discriminate|].
    destruct (_ >? 0); intros [= <-]; reflexivity.
  - simpl. intros [= <-]. reflexivity.
Qed.



Lemma append_to_csv_csv data h :
  csv (append_to_csv data h) = csv h \/ csv (append_to_csv data h) = csv h ++ [data].
Proof.
  unfold append_to_csv. destruct (Py.dirname_is_empty _); simpl; auto.
Qed.

(** What [process_page] does to the table: nothing, or one more row for
    the page at the end. *)
Lemma process_page_csv w p h :
  csv (process_page w p h) = csv h \/
  exists pd, processor w (length (calls h)) p = Some pd /\
    csv (process_page w p h) =
      csv h ++ [ {| Csv.page_number := page_number pd; Csv.text := text pd;
                    Csv.word_count := word_count pd; Csv.file_path := p;
                    Csv.processed_at := strftime w (length (calls h));
                    Csv.audio_path := "" |} ].
Proof.
  unfold process_page. destruct (processor w _ p) as [pd|]; simpl; auto.
  unfold append_to_csv; simpl. destruct (Py.dirname_is_empty _); simpl; eauto.
Qed.




Example stored_page_number_from_stem :
  map Csv.page_number
    (csv (process_page demo_world page_01 (new_handler "book/pages.csv" [])))
  = [1].
Proof. reflexivity. Qed.

(** Without digits in the stem the extractor's number is stored. *)
Example stored_page_number_from_reply :
  map Csv.page_number
    (csv (process_page demo_world "book/cover.png" (new_handler "book/pages.csv" [])))
  = [7].
Proof. reflexivity. Qed.

(** A digit run of value 0 does not override the extractor's number. *)
Example stored_page_number_zero_run :
  map Csv.page_number
    (csv (process_page demo_world "book/page_000.png" (new_handler "book/pages.csv" [])))
  = [7].
Proof. reflexivity. Qed.

(** A digit of another script counts as the digit it is. *)
Example stored_page_number_arabic_digit :
  map Csv.page_number
    (csv (process_page demo_world ("book/page_" ++ arabic_three ++ ".jpg")
            (new_handler "book/pages.csv" [])))
  = [3].
Proof. reflexivity. Qed.

(** With neither a run in the stem nor a number found by the extractor,
    the extractor's 0 is stored. *)
Example stored_page_number_zero :
  map Csv.page_number
    (csv (process_page (ollama_world Py.unicode_14 no_number_ollama demo_clock)
            "book/cover.png" (new_handler "book/pages.csv" [])))
  = [0].
Proof. reflexivity. Qed.

(** A reply without the page number field stores no row, whatever the file
    name says. *)
Example missing_page_number_stores_nothing :
  csv (process_page (ollama_world Py.unicode_14 incomplete_ollama demo_clock)
         page_01 (new_handler "book/pages.csv" []))
  = [].
Proof. reflexivity. Qed.

(** ** Properties of the ingestion watcher *)

Lemma process_page_processed_files w p h :
  processed_files (process_page w p h) = {[ p ]} ∪ processed_files h.
Proof.
  unfold process_page. destruct (processor w _ p); simpl; [|reflexivity].
  unfold append_to_csv; simpl. destruct (Py.dirname_is_empty _); reflexivity.
Qed.

Lemma process_page_calls w p h :
  calls (process_page w p h) = calls h ++ [p].
Proof.
  unfold process_page. destruct (processor w _ p); simpl; [|reflexivity].
  unfold append_to_csv; simpl. destruct (Py.dirname_is_empty _); reflexivity.
Qed.

Lemma rows_for_app p t1 t2 : rows_for p (t1 ++ t2) = rows_for p t1 ++ rows_for p t2.
Proof. unfold rows_for. apply List.filter_app. Qed.

Lemma process_page_rows_for_other w p q h :
  q <> p -> rows_for p (csv (process_page w q h)) = rows_for p (csv h).
Proof.
  intros Hne. destruct (process_page_csv w q h) as [-> | (pd & _ & ->)]; [reflexivity|].
  rewrite rows_for_app. unfold rows_for at 2. simpl.
  destruct (String.eqb_spec q p); [contradiction|]. apply app_nil_r.
Qed.

Lemma process_page_times_other w p q h :
  q <> p -> times_processed p (process_page w q h) = times_processed p h.
Proof.
  intros Hne. unfold times_processed. rewrite process_page_calls, List.filter_app.
  simpl. destruct (String.eqb_spec p q); [congruence|].
  rewrite app_nil_r. reflexivity.
Qed.

(** A creation event for a path the handler has already seen changes
    nothing: no call, no row, no log record. *)
Lemma on_created_seen w e h :
  src_path e ∈ processed_files h -> on_created w e h = h.
Proof.
  intros Hin. unfold on_created. destruct (is_directory e); [reflexivity|].
  rewrite (bool_decide_eq_false_2 (src_path e ∉ processed_files h)) by auto.
  rewrite andb_false_r. reflexivity.
Qed.

Lemma on_created_processed_files w e h :
  processed_files h ⊆ processed_files (on_created w e h).
Proof.
  unfold on_created. destruct (is_directory e); [reflexivity|].
  destruct (_ && _); [|reflexivity].
  rewrite process_page_processed_files. simpl. set_solver.
Qed.

(** Events for other paths leave the rows and the calls of [p] alone. *)
Lemma on_created_other w e p h :
  p ∈ processed_files h ->
  rows_for p (csv (on_created w e h)) = rows_for p (csv h) /\
  times_processed p (on_created w e h) = times_processed p h.
Proof.
  intros Hin. destruct (decide (src_path e = p)) as [Heq|Hne].
  - rewrite on_created_seen by (rewrite Heq; exact Hin). auto.
  - unfold on_created. destruct (is_directory e); [auto|].
    destruct (_ && _); [|auto].
    rewrite process_page_rows_for_other, process_page_times_other by exact Hne.
    auto.
Qed.

Lemma watch_seen w events : forall p h,
  p ∈ processed_files h ->
  p ∈ processed_files (watch w events h) /\
  rows_for p (csv (watch w events h)) = rows_for p (csv h) /\
  times_processed p (watch w events h) = times_processed p h.
Proof.
  induction events as [|e events IH]; intros p h Hin; [simpl; auto|].
  unfold watch in *. simpl.
  assert (Hin' : p ∈ processed_files (on_created w e h))
    by (apply (on_created_processed_files w e h), Hin).
  destruct (IH p _ Hin') as (H1 & H2 & H3).
  destruct (on_created_other w e p h Hin) as [H4 H5].
  split; [exact H1|]. split; congruence.
Qed.

(** C10. Within one watch session the source path enters [processed_files]
    before extraction is attempted, so once extraction of a path has
    failed, every later creation event for that path in the session is
    ignored without trace: the path is never handed to the processor again
    and the table gets no row for it. *)
Theorem failed_extraction_never_retried w h p events :
  processor w (length (calls h)) p = None ->
  let h1 := process_page w p h in
  let h2 := watch w events h1 in
  p ∈ processed_files h1 /\
  csv h1 = csv h /\
  (forall e, src_path e = p -> on_created w e h2 = h2) /\
  times_processed p h2 = times_processed p h1 /\
  rows_for p (csv h2) = rows_for p (csv h).
Proof.
  intros Hfail h1 h2.
  assert (Hin : p ∈ processed_files h1).
  { subst h1. rewrite process_page_processed_files. set_solver. }
  assert (Hcsv : csv h1 = csv h).
  { subst h1. unfold process_page. rewrite Hfail. reflexivity. }
  destruct (watch_seen w events p h1 Hin) as (Hin2 & Hrows & Htimes).
  split; [exact Hin|]. split; [exact Hcsv|]. split.
  - intros e He. apply on_created_seen. rewrite He. exact Hin2.
  - split; [exact Htimes|]. fold h2 in Hrows. rewrite Hrows, Hcsv. reflexivity.
Qed.

(** An instance: extraction of [page_01] fails and two more creation
    events for it arrive. *)
Lemma failed_extraction_never_retried_witness :
  let h1 := process_page failing_world page_01 (new_handler "book/pages.csv" []) in
  let h2 := watch failing_world [page_01_created; page_01_created] h1 in
  page_01 ∈ processed_files h1 /\
  csv h1 = [] /\
  (forall e, src_path e = page_01 -> on_created failing_world e h2 = h2) /\
  times_processed page_01 h2 = times_processed page_01 h1 /\
  rows_for page_01 (csv h2) = [].
Proof.
  apply (failed_extraction_never_retried failing_world
           (new_handler "book/pages.csv" []) page_01
           [page_01_created; page_01_created]).
  reflexivity.
Defined.

(** The path is recorded as processed whatever the processor answers. *)
Lemma process_page_marks_processed w p h : p ∈ processed_files (process_page w p h).
Proof. rewrite process_page_processed_files. set_solver. Qed.

Lemma process_page_invariant w q h table added :
  session_invariant table h added ->
  rows_for q added = [] ->
  exists added',
    session_invariant table (process_page w q h) added' /\
    (forall p, p <> q -> rows_for p added' = rows_for p added).
Proof.
  intros (Hcsv & Hone & Hseen) Hfresh.
  destruct (process_page_csv w q h) as [Hsame | (pd & _ & Happ)].
  - exists added. split; [|auto]. split; [congruence|]. split; [exact Hone|].
    intros p Hp. rewrite process_page_processed_files.
    apply elem_of_union_r, Hseen, Hp.
  - eexists (added ++ [_]). split; [split; [|split]|].
    + rewrite Happ, Hcsv, <- app_assoc. reflexivity.
    + intros p. rewrite rows_for_app, length_app. unfold rows_for at 2. simpl.
      destruct (String.eqb_spec q p) as [<-|Hne]; simpl.
      * rewrite Hfresh. simpl. lia.
      * specialize (Hone p). lia.
    + intros p. rewrite process_page_processed_files, rows_for_app.
      unfold rows_for at 2. simpl.
      destruct (String.eqb_spec q p) as [<-|Hne]; simpl.
      * intros _. set_solver.
      * rewrite app_nil_r. intros Hp. apply elem_of_union_r, Hseen, Hp.
    + intros p Hne. rewrite rows_for_app. unfold rows_for at 2. simpl.
      destruct (String.eqb_spec q p); [congruence|]. apply app_nil_r.
Qed.

Lemma add_log_invariant table r h added :
  session_invariant table h added -> session_invariant table (add_log r h) added.
Proof. intros H. exact H. Qed.

Lemma scan_invariant w table : forall listing h added,
  NoDup (map entry_path listing) ->
  session_invariant table h added ->
  (forall e, e ∈ listing -> rows_for (entry_path e) added = []) ->
  exists added', session_invariant table (foldl (scan_entry w) h listing) added'.
Proof.
  induction listing as [|e listing IH]; intros h added Hnd Hinv Hfresh; simpl.
  { eauto. }
  apply NoDup_cons in Hnd as [Hnotin Hnd].
  assert (Hrest : forall e', e' ∈ listing -> rows_for (entry_path e') added = []).
  { intros e' He'. apply Hfresh. now right. }
  unfold scan_entry at 2.
  destruct (is_file e); [|eauto].
  destruct (bool_decide _); [|eauto].
  destruct (process_page_invariant w (entry_path e) h table added Hinv)
    as (added' & Hinv' & Hother).
  { apply Hfresh. now left. }
  apply (IH _ added' Hnd Hinv').
  intros e' He'. rewrite Hother; [auto|].
  intros Heq. apply Hnotin. rewrite <- Heq. apply list_elem_of_fmap. eauto.
Qed.

Lemma watch_invariant w table : forall events h added,
  session_invariant table h added ->
  exists added', session_invariant table (watch w events h) added'.
Proof.
  induction events as [|e events IH]; intros h added Hinv; [simpl; eauto|].
  unfold watch in *. simpl.
  unfold on_created at 2.
  destruct (is_directory e); [eauto|].
  destruct (bool_decide (_ ∈ image_extensions)); simpl; [|eauto].
  destruct (bool_decide_reflect (src_path e ∉ processed_files h)) as [Hnew|_];
    [|eauto].
  destruct (process_page_invariant w (src_path e) (add_log (InfoNewImage (src_path e)) h)
              table added) as (added' & Hinv' & _).
  - apply add_log_invariant, Hinv.
  - destruct Hinv as (_ & _ & Hseen).
    destruct (rows_for (src_path e) added) eqn:Hrows; [reflexivity|].
    exfalso. apply Hnew, Hseen. rewrite Hrows. discriminate.
  - eauto.
Qed.

(** C1, as the code has it. In one session (a fresh handler, one scan of a
    directory listing that names each path once, then any creation events)
    the rows already in the table stay as they are, every path gets at most
    one new row, and a creation event for a path the session has seen is a
    no-op. *)
Theorem session_appends_once_per_path w out table listing events :
  NoDup (map entry_path listing) ->
  let h := session w out table listing events in
  (exists added,
      csv h = table ++ added /\
      forall p, (length (rows_for p added) <= 1)%nat) /\
  (forall e, src_path e ∈ processed_files h -> on_created w e h = h).
Proof.
  intros Hnd h. split; [|intros e; apply on_created_seen].
  destruct (scan_invariant w table listing
              (add_log InfoProcessingExisting (new_handler out table)) [] Hnd)
    as (added1 & Hinv1).
  - split; [simpl; rewrite app_nil_r; reflexivity|].
    split; [intros p; simpl; lia|]. intros p Hp. now contradict Hp.
  - reflexivity.
  - destruct (watch_invariant w table events _ added1 Hinv1) as (added & Hcsv & Hone & _).
    exists added. split; [exact Hcsv | exact Hone].
Qed.

(** An instance: [page_01] is found by the scan and then announced twice by
    the watcher. *)
Lemma session_appends_once_per_path_witness :
  let h := session demo_world "book/pages.csv" [] [page_01_entry]
             [page_01_created; page_01_created] in
  (exists added,
      csv h = [] ++ added /\
      forall p, (length (rows_for p added) <= 1)%nat) /\
  (forall e, src_path e ∈ processed_files h -> on_created demo_world e h = h).
Proof.
  apply (session_appends_once_per_path demo_world "book/pages.csv" []
           [page_01_entry] [page_01_created; page_01_created]).
  simpl. apply NoDup_singleton.
Defined.

(** The session above stores page_01 once although it is observed three
    times. *)
Example session_one_row :
  map Csv.file_path
    (csv (session demo_world "book/pages.csv" [] [page_01_entry]
            [page_01_created; page_01_created])) = [page_01].
Proof. reflexivity. Qed.

(** C1, as stated, fails: scanning the directory again after a restart
    (a new handler on the CSV file the first run left) stores the page a
    second time. *)
Lemma restart_scan_duplicates_row :
  let first := session demo_world "book/pages.csv" [] [page_01_entry] [] in
  let second := session demo_world "book/pages.csv" (csv first) [page_01_entry] [] in
  length (rows_for page_01 (csv first)) = 1%nat /\
  length (rows_for page_01 (csv second)) <> 1%nat.
Proof. split; [reflexivity|]. vm_compute. discriminate. Qed.

(** Calling [process_page] twice on one handler does the same: it never
    consults [processed_files]. *)
Example process_page_twice :
  let h := process_page demo_world page_01
             (process_page demo_world page_01 (new_handler "book/pages.csv" [])) in
  map Csv.file_path (csv h) = [page_01; page_01].
Proof. reflexivity. Qed.

(** ** Paths *)

Lemma split_on_nonempty c s : Py.split_on c s <> [].
Proof.
  destruct s as [|a s]; simpl; [discriminate|].
  destruct (Ascii.eqb a c); [discriminate|].
  destruct (Py.split_on c s); discriminate.
Qed.

Lemma split_on_app_sep c : forall a b,
  Py.split_on c (a ++ String c b)%string = Py.split_on c a ++ Py.split_on c b.
Proof.
  induction a as [|x a IH]; intros b; simpl.
  { rewrite Ascii.eqb_refl. reflexivity. }
  destruct (Ascii.eqb x c); rewrite IH; [reflexivity|].
  pose proof (split_on_nonempty c a).
  destruct (Py.split_on c a); [contradiction | reflexivity].
Qed.

Lemma ends_with_slash_inv : forall a,
  PyPath.ends_with_slash a = true -> exists a', a = (a' ++ "/")%string.
Proof.
  induction a as [|x a IH]; [discriminate|].
  destruct a as [|y a].
  - simpl. intros Hx. apply Ascii.eqb_eq in Hx as ->. exists "". reflexivity.
  - intros H. destruct (IH H) as [a' ->]. exists (String x a'). reflexivity.
Qed.

Lemma string_app_assoc (a b c : string) : ((a ++ b) ++ c = a ++ b ++ c)%string.
Proof.
  induction a as [|x a IH]; [reflexivity|].
  change (String x ((a ++ b) ++ c) = String x (a ++ b ++ c))%string.
  f_equal. exact IH.
Qed.

Lemma parts_app_sep a b :
  PyPath.parts (a ++ String "/" b)%string = PyPath.parts a ++ PyPath.parts b.
Proof. unfold PyPath.parts. rewrite split_on_app_sep. apply List.filter_app. Qed.

(** Joining a single name onto a directory appends one component. *)
Lemma parts_os_join dir name :
  PyPath.starts_with_slash name = false ->
  PyPath.parts name = [name] ->
  PyPath.parts (PyPath.os_join dir name) = PyPath.parts dir ++ [name].
Proof.
  intros Hstart Hname. unfold PyPath.os_join. rewrite Hstart.
  destruct (str_is_empty dir) eqn:Hempty.
  { destruct dir; [|discriminate]. simpl. exact Hname. }
  cbn [orb]. destruct (PyPath.ends_with_slash dir) eqn:Hends.
  - destruct (ends_with_slash_inv _ Hends) as [a' Heq]. subst dir.
    rewrite string_app_assoc. change ("/" ++ name)%string with (String "/" name).
    change (a' ++ "/")%string with (a' ++ String "/" "")%string.
    rewrite !parts_app_sep, Hname.
    change (PyPath.parts "") with (@nil string). rewrite app_nil_r. reflexivity.
  - change ("/" ++ name)%string with (String "/" name).
    rewrite parts_app_sep, Hname. reflexivity.
Qed.

Lemma root_cases p : PyPath.root p = "" \/ PyPath.root p = "/" \/ PyPath.root p = "//".
Proof.
  unfold PyPath.root. destruct p as [|a [|b [|c r]]]; auto;
    repeat match goal with |- context [Ascii.eqb ?x ?y] => destruct (Ascii.eqb x y) end;
    auto.
Qed.



Lemma rfind_app c : forall a b,
  Py.rfind c (a ++ b)%string = None <-> Py.rfind c a = None /\ Py.rfind c b = None.
Proof.
  induction a as [|x a IH]; intros b; simpl; [tauto|].
  destruct (Py.rfind c (a ++ b)%string) as [i|] eqn:Hab.
  - split; [discriminate|]. intros [Ha Hb].
    destruct (Py.rfind c a) as [j|] eqn:Hja; [discriminate|].
    assert (Hnone : Py.rfind c (a ++ b)%string = None) by (apply IH; auto).
    congruence.
  - apply IH in Hab as [-> ->]. destruct (Ascii.eqb x c); split; auto.
    intros [H _]. discriminate.
Qed.

Lemma split_on_components c : forall s,
  Forall (fun x => Py.rfind c x = None) (Py.split_on c s).
Proof.
  induction s as [|a s IH]; simpl; [repeat constructor|].
  destruct (Ascii.eqb a c) eqn:Hac; [constructor; [reflexivity | exact IH]|].
  pose proof (split_on_nonempty c s).
  destruct (Py.split_on c s) as [|h t]; [contradiction|].
  apply Forall_cons in IH as [Hh Ht]. constructor; [|exact Ht].
  simpl. rewrite Hh, Hac. reflexivity.
Qed.

Lemma parts_components p :
  Forall (fun x => Py.rfind "/" x = None /\ Py.is_component x = true) (PyPath.parts p).
Proof.
  unfold PyPath.parts. pose proof (split_on_components "/" p) as Hall.
  induction Hall as [|x l Hx Hall IH]; simpl; [constructor|].
  destruct (Py.is_component x) eqn:Hc; [constructor; auto | exact IH].
Qed.



Lemma str_of_parts p :
  PyPath.parts p <> [] ->
  PyPath.str p = (PyPath.root p ++ PyPath.join (PyPath.parts p))%string.
Proof.
  unfold PyPath.str. intros Hne.
  destruct (PyPath.root p); [|reflexivity].
  destruct (PyPath.parts p); [contradiction | reflexivity].
Qed.


(** [str(Path(p))] is never the empty string. *)
Lemma str_not_empty p : str_is_empty (PyPath.str p) = false.
Proof.
  unfold PyPath.str. pose proof (parts_components p) as Hall.
  destruct (root_cases p) as [-> | [-> | ->]]; [|reflexivity ..].
  destruct (PyPath.parts p) as [|x ps]; [reflexivity|].
  apply Forall_cons in Hall as [[_ Hx] _].
  destruct x as [|c x]; [discriminate|].
  destruct ps; reflexivity.
Qed.

Lemma split_on_no_sep c : forall s, Py.rfind c s = None -> Py.split_on c s = [s].
Proof.
  induction s as [|a s IH]; simpl; [reflexivity|].
  destruct (Py.rfind c s) as [i|]; [discriminate|].
  destruct (Ascii.eqb a c); [discriminate|]. intros _.
  rewrite IH by reflexivity. reflexivity.
Qed.

Lemma last_app_nonempty {A} (l1 l2 : list A) d :
  l2 <> [] -> List.last (l1 ++ l2) d = List.last l2 d.
Proof.
  intros Hne. induction l1 as [|x l1 IH]; [reflexivity|].
  simpl. destruct (l1 ++ l2) eqn:Happ; [|exact IH].
  apply app_eq_nil in Happ as [_ ->]. contradiction.
Qed.

(** The last piece of a joined path is its last component. *)
Lemma last_split_on_join : forall ps d,
  ps <> [] ->
  Forall (fun x => Py.rfind "/" x = None) ps ->
  List.last (Py.split_on "/" (PyPath.join ps)) d = List.last ps d.
Proof.
  induction ps as [|x ps IH]; intros d Hne Hall; [contradiction|].
  apply Forall_cons in Hall as [Hx Hall].
  destruct ps as [|y ps].
  - simpl. rewrite split_on_no_sep by exact Hx. reflexivity.
  - change (PyPath.join (x :: y :: ps))
      with (x ++ String "/" (PyPath.join (y :: ps)))%string.
    rewrite split_on_app_sep, last_app_nonempty by apply split_on_nonempty.
    rewrite IH by (discriminate || exact Hall). reflexivity.
Qed.

Lemma last_split_on_root r s d :
  r = "" \/ r = "/" \/ r = "//" ->
  List.last (Py.split_on "/" (r ++ s)%string) d = List.last (Py.split_on "/" s) d.
Proof.
  pose proof (split_on_nonempty "/" s) as Hne.
  intros [-> | [-> | ->]].
  - reflexivity.
  - change (Py.split_on "/" ("/" ++ s)%string) with ("" :: Py.split_on "/" s).
    destruct (Py.split_on "/" s); [contradiction | reflexivity].
  - change (Py.split_on "/" ("//" ++ s)%string) with ("" :: "" :: Py.split_on "/" s).
    destruct (Py.split_on "/" s); [contradiction | reflexivity].
Qed.

Lemma no_slash_no_leading_slash s :
  Py.rfind "/" s = None -> PyPath.starts_with_slash s = false.
Proof.
  destruct s as [|a s]; simpl; [reflexivity|].
  destruct (Py.rfind "/" s); [discriminate|].
  destruct (Ascii.eqb a "/"); [discriminate | reflexivity].
Qed.

(** Joining a name onto a directory gives a path whose last piece is that
    name. *)
Lemma div_last_component dir name :
  Py.rfind "/" name = None -> Py.is_component name = true ->
  List.last (Py.split_on "/" (PyPath.div dir name)) "" = name.
Proof.
  intros Hslash Hcomp. unfold PyPath.div.
  assert (Hparts : PyPath.parts (PyPath.os_join dir name) = PyPath.parts dir ++ [name]).
  { apply parts_os_join; [apply no_slash_no_leading_slash, Hslash|].
    unfold PyPath.parts. rewrite split_on_no_sep by exact Hslash.
    simpl. rewrite Hcomp. reflexivity. }
  rewrite str_of_parts by (rewrite Hparts; destruct (PyPath.parts dir); discriminate).
  rewrite last_split_on_root by apply root_cases.
  rewrite Hparts, last_split_on_join.
  - apply last_last.
  - destruct (PyPath.parts dir); discriminate.
  - apply Forall_app. split.
    + eapply Forall_impl; [apply parts_components|]. simpl. tauto.
    + repeat constructor. exact Hslash.
Qed.

(** ** Properties of the synthesis driver *)

Lemma no_text_has_text row : no_text row = true -> has_text row = false.
Proof.
  unfold no_text, has_text. destruct (Df.text row) as [|t|];
    [reflexivity | intros ->; reflexivity | discriminate].
Qed.

Lemma has_text_raises row :
  raises row = None -> has_text row = true ->
  exists t n, Df.text row = Df.Str t /\ Py.strip_is_empty t = false /\
              Df.page_number row = Df.Int n.
Proof.
  unfold raises, has_text. destruct (Df.text row) as [|t|];
    [intros _ H; discriminate H | | intros H; discriminate H].
  destruct (Py.strip_is_empty t) eqn:Hstrip; [intros _ H; discriminate H|].
  destruct (Df.page_number row) as [n|]; [|intros H; discriminate H].
  intros _ _. exists t, n. repeat split. exact Hstrip.
Qed.

Lemma generate_audio_result run n t p :
  str_is_empty p = false ->
  generate_audio run n t p = (if binary_succeeds (run n t p) then p else "").
Proof.
  intros Hp. unfold generate_audio, binary_succeeds.
  destruct (run n t p) as [rc ex| |]; try reflexivity.
  destruct (rc =? 0); destruct ex; reflexivity.
Qed.

(** The body of the loop on a row with text to speak and an integer page
    number: one call of [generate_audio], and the audio path recorded
    exactly when the binary succeeds. *)
Lemma batch_step_submit run out b idx row t n :
  Df.text row = Df.Str t -> Py.strip_is_empty t = false ->
  Df.page_number row = Df.Int n ->
  let path := audio_file_for out n in
  let k := length (submitted b) in
  exists b',
    batch_step run out b idx row = inr b' /\
    submitted b'
    = submitted b ++ [ {| sub_idx := idx; sub_text := t; sub_output_path := path;
                          sub_result_path := generate_audio run k t path |} ] /\
    df b' = (if binary_succeeds (run k t path)
             then df_at_set_audio_path idx path (df b) else df b).
Proof.
  intros Ht Hstrip Hn path k.
  assert (Hp : str_is_empty path = false) by apply str_not_empty.
  unfold batch_step. rewrite Ht, Hstrip, Hn.
  change (PyPath.div out ("page_" ++ Py.format_03d n ++ ".wav")%string) with path.
  fold k. rewrite (generate_audio_result run k t path Hp).
  destruct (binary_succeeds (run k t path)); simpl.
  - rewrite Hp. simpl. eexists. split; [reflexivity|]. split; reflexivity.
  - eexists. split; [reflexivity|]. split; reflexivity.
Qed.

(** The three ways the body of the loop can go. *)
Lemma batch_step_cases run out b idx row :
  match raises row with
  | Some e => batch_step run out b idx row = inl e
  | None =>
      exists b', batch_step run out b idx row = inr b' /\
        if has_text row then
          exists call, sub_idx call = idx /\ submitted b' = submitted b ++ [call] /\
            (df b' = df b \/ exists p, df b' = df_at_set_audio_path idx p (df b))
        else df b' = df b /\ submitted b' = submitted b
  end.
Proof.
  destruct (raises row) as [e|] eqn:Hraise.
  - revert Hraise. unfold raises, batch_step.
    destruct (Df.text row) as [|t|]; [discriminate | | intros [= <-]; reflexivity].
    destruct (Py.strip_is_empty t); [discriminate|].
    destruct (Df.page_number row); [discriminate | intros [= <-]; reflexivity].
  - destruct (has_text row) eqn:Htext.
    + destruct (has_text_raises row Hraise Htext) as (t & n & Ht & Hstrip & Hn).
      destruct (batch_step_submit run out b idx row t n Ht Hstrip Hn)
        as (b' & Hstep & Hsub & Hdf).
      exists b'. split; [exact Hstep|]. eexists. split; [|split; [exact Hsub|]].
      * reflexivity.
      * rewrite Hdf. destruct (binary_succeeds _); eauto.
    + revert Hraise Htext. unfold raises, has_text, batch_step.
      destruct (Df.text row) as [|t|]; [| |discriminate].
      * intros _ _. eexists. split; [reflexivity|]. split; reflexivity.
      * destruct (Py.strip_is_empty t); [|discriminate].
        intros _ _. eexists. split; [reflexivity|]. split; reflexivity.
Qed.

Lemma text_indices_cons idx row rows :
  text_indices idx (row :: rows)
  = (if has_text row then [idx] else []) ++ text_indices (S idx) rows.
Proof.
  unfold text_indices. simpl. destruct (has_text row); reflexivity.
Qed.

Lemma elem_of_text_indices i : forall rows idx,
  i ∈ text_indices idx rows <->
  exists row, (idx <= i)%nat /\ rows !! (i - idx)%nat = Some row /\ has_text row = true.
Proof.
  induction rows as [|row rows IH]; intros idx.
  { unfold text_indices. simpl. split; [intros H; inversion H|].
    intros (row & _ & H & _). discriminate. }
  rewrite text_indices_cons.
  assert (Hrec := IH (S idx)). clear IH.
  destruct (Nat.eq_dec i idx) as [->|Hne].
  - rewrite Nat.sub_diag. simpl. split.
    + intros Hin. destruct (has_text row) eqn:Hrow; simpl in Hin.
      * eauto.
      * apply Hrec in Hin as (? & Hle & _). lia.
    + intros (row' & _ & [= <-] & Hrow). rewrite Hrow. simpl. left.
  - transitivity (i ∈ text_indices (S idx) rows).
    + destruct (has_text row); simpl; [|reflexivity].
      rewrite elem_of_cons. intuition.
    + rewrite Hrec. split; intros (row' & Hle & Hlook & Hrow); exists row'.
      * split; [lia|]. split; [|exact Hrow].
        replace (i - idx)%nat with (S (i - S idx)) by lia. exact Hlook.
      * split; [lia|]. split; [|exact Hrow].
        replace (i - idx)%nat with (S (i - S idx)) in Hlook by lia. exact Hlook.
Qed.

Lemma text_indices_ge i : forall rows idx, i ∈ text_indices idx rows -> (idx <= i)%nat.
Proof. intros rows idx Hin. apply elem_of_text_indices in Hin as (? & Hle & _). exact Hle. Qed.

Lemma text_indices_nodup : forall rows idx, NoDup (text_indices idx rows).
Proof.
  induction rows as [|row rows IH]; intros idx; [constructor|].
  rewrite text_indices_cons. destruct (has_text row); simpl; [|apply IH].
  constructor; [|apply IH]. intros Hin. apply text_indices_ge in Hin. lia.
Qed.

(** The loop gets through exactly the rows before the first one that
    raises. *)
Lemma reached_lookup : forall rows i row,
  reached rows !! i = Some row -> rows !! i = Some row.
Proof.
  induction rows as [|r rows IH]; intros i row; simpl; [discriminate|].
  destruct (raises r); [discriminate|].
  destruct i as [|i]; simpl; [auto | apply IH].
Qed.

Lemma reached_all rows :
  Forall (fun row => raises row = None) rows -> reached rows = rows.
Proof.
  induction 1 as [|r rows Hr _ IH]; simpl; [reflexivity|].
  rewrite Hr, IH. reflexivity.
Qed.

Lemma batch_loop_completes run out : forall rows b idx,
  (batch_loop run out b idx rows).2 = None <->
  Forall (fun row => raises row = None) rows.
Proof.
  induction rows as [|row rows IH]; intros b idx; simpl.
  { split; [constructor | reflexivity]. }
  pose proof (batch_step_cases run out b idx row) as Hstep.
  destruct (raises row) as [e|] eqn:Hraise.
  - rewrite Hstep. simpl. split; [discriminate|].
    intros Hall. apply Forall_cons in Hall as [Hrow _]. congruence.
  - destruct Hstep as (b' & -> & _). rewrite IH. split.
    + intros Hall. constructor; assumption.
    + intros Hall. apply Forall_cons in Hall as [_ Hall]. exact Hall.
Qed.

Lemma batch_loop_submitted run out : forall rows b idx,
  map sub_idx (submitted (batch_loop run out b idx rows).1)
  = map sub_idx (submitted b) ++ text_indices idx (reached rows).
Proof.
  induction rows as [|row rows IH]; intros b idx; simpl.
  { unfold text_indices. simpl. rewrite app_nil_r. reflexivity. }
  pose proof (batch_step_cases run out b idx row) as Hstep.
  destruct (raises row) as [e|] eqn:Hraise.
  - rewrite Hstep. simpl. unfold text_indices. simpl. rewrite app_nil_r. reflexivity.
  - destruct Hstep as (b' & -> & Hstep). rewrite IH, text_indices_cons.
    destruct (has_text row).
    + destruct Hstep as (call & Hidx & -> & _).
      rewrite map_app, <- app_assoc. simpl. rewrite Hidx. reflexivity.
    + destruct Hstep as [_ ->]. reflexivity.
Qed.

Lemma batch_loop_submitted_prefix run out : forall rows b idx,
  exists more, submitted (batch_loop run out b idx rows).1 = submitted b ++ more.
Proof.
  induction rows as [|row rows IH]; intros b idx; simpl.
  { exists []. rewrite app_nil_r. reflexivity. }
  pose proof (batch_step_cases run out b idx row) as Hstep.
  destruct (raises row) as [e|].
  - rewrite Hstep. simpl. exists []. rewrite app_nil_r. reflexivity.
  - destruct Hstep as (b' & -> & Hstep).
    destruct (IH b' (S idx)) as [more ->].
    destruct (has_text row).
    + destruct Hstep as (call & _ & -> & _).
      exists (call :: more). rewrite <- app_assoc. reflexivity.
    + destruct Hstep as [_ ->]. eauto.
Qed.

Lemma df_at_set_audio_path_lookup_ne idx p frame i :
  i <> idx -> df_at_set_audio_path idx p frame !! i = frame !! i.
Proof.
  intros Hne. unfold df_at_set_audio_path. destruct (frame !! idx); [|reflexivity].
  apply list_lookup_insert_ne. congruence.
Qed.

(** A row whose label is not among those with text that the loop gets to
    is left as it is. *)
Lemma batch_loop_untouched run out i : forall rows b idx,
  i ∉ text_indices idx (reached rows) ->
  df (batch_loop run out b idx rows).1 !! i = df b !! i.
Proof.
  induction rows as [|row rows IH]; intros b idx Hi; simpl; [reflexivity|].
  pose proof (batch_step_cases run out b idx row) as Hstep.
  simpl in Hi. destruct (raises row) as [e|].
  - rewrite Hstep. reflexivity.
  - destruct Hstep as (b' & -> & Hstep). rewrite text_indices_cons in Hi.
    destruct (has_text row).
    + apply not_elem_of_cons in Hi as [Hne Hi]. rewrite IH by exact Hi.
      destruct Hstep as (call & _ & _ & [-> | [p ->]]); [reflexivity|].
      apply df_at_set_audio_path_lookup_ne, Hne.
    + rewrite IH by exact Hi. destruct Hstep as [-> _]. reflexivity.
Qed.

Lemma audio_update_set p r r' : audio_update r r' -> audio_update r (set_audio_path p r').
Proof. intros [-> | [q ->]]; right; exists p; reflexivity. Qed.

Lemma df_at_set_audio_path_update idx p : forall frame frame',
  Forall2 audio_update frame frame' ->
  Forall2 audio_update frame (df_at_set_audio_path idx p frame').
Proof.
  unfold df_at_set_audio_path. intros frame frame' Hall.
  destruct (frame' !! idx) as [r'|] eqn:Hr'; [|exact Hall].
  revert idx Hr'. induction Hall as [|r r0 frame frame' Hr Hall IH]; intros [|idx] Hr';
    try discriminate; simpl in *.
  - injection Hr' as ->. constructor; [apply audio_update_set, Hr | exact Hall].
  - constructor; [exact Hr | apply IH, Hr'].
Qed.

(** The loop only ever writes the audio column. *)
Lemma batch_loop_update run out frame : forall rows b idx,
  Forall2 audio_update frame (df b) ->
  Forall2 audio_update frame (df (batch_loop run out b idx rows).1).
Proof.
  induction rows as [|row rows IH]; intros b idx Hall; simpl; [exact Hall|].
  pose proof (batch_step_cases run out b idx row) as Hstep.
  destruct (raises row) as [e|].
  - rewrite Hstep. exact Hall.
  - destruct Hstep as (b' & -> & Hstep). apply IH.
    destruct (has_text row).
    + destruct Hstep as (call & _ & _ & [-> | [p ->]]);
        [exact Hall | apply df_at_set_audio_path_update, Hall].
    + destruct Hstep as [-> _]. exact Hall.
Qed.

Lemma audio_update_refl frame : Forall2 audio_update frame frame.
Proof. induction frame as [|r frame IH]; constructor; [left; reflexivity | exact IH]. Qed.

(** Which rows raise and which have text is settled by the text and page
    number columns, which the batch does not write. *)
Lemma audio_update_reached : forall rows rows' idx,
  Forall2 audio_update rows rows' ->
  text_indices idx (reached rows') = text_indices idx (reached rows) /\
  (Forall (fun row => raises row = None) rows' <->
   Forall (fun row => raises row = None) rows).
Proof.
  intros rows rows' idx Hall. revert idx.
  induction Hall as [|r r' rows rows' Hr Hall IH]; intros idx; [tauto|].
  assert (Hsame : raises r' = raises r /\ has_text r' = has_text r)
    by (destruct Hr as [-> | [p ->]]; split; reflexivity).
  destruct Hsame as [Hraise Htext]. destruct (IH (S idx)) as [Hidx Hiff]. split.
  - simpl. rewrite Hraise. destruct (raises r); [reflexivity|].
    rewrite !text_indices_cons, Htext, Hidx. reflexivity.
  - split; intros H; apply Forall_cons in H as [H1 H2]; constructor;
      try congruence; apply Hiff; exact H2.
Qed.

(** What a batch has submitted, whether it returns or raises. *)
Lemma batch_submitted run frame out :
  map sub_idx (submitted (text_to_speech_batch run frame out).1)
  = text_indices 0 (reached frame).
Proof.
  unfold text_to_speech_batch.
  pose proof (batch_loop_submitted run out frame
                {| df := frame; submitted := [];
                   stdout := [PrintGeneratingFor (length frame)] |} 0) as H.
  destruct (batch_loop run out _ 0 frame) as [b [e|]]; exact H.
Qed.

Lemma batch_frame run frame out :
  Forall2 audio_update frame (df (text_to_speech_batch run frame out).1).
Proof.
  unfold text_to_speech_batch.
  pose proof (batch_loop_update run out frame frame
                {| df := frame; submitted := [];
                   stdout := [PrintGeneratingFor (length frame)] |} 0
                (audio_update_refl frame)) as H.
  destruct (batch_loop run out _ 0 frame) as [b [e|]]; exact H.
Qed.

Lemma batch_untouched run frame out i :
  i ∉ text_indices 0 (reached frame) ->
  df (text_to_speech_batch run frame out).1 !! i = frame !! i.
Proof.
  intros Hi. unfold text_to_speech_batch.
  pose proof (batch_loop_untouched run out i frame
                {| df := frame; submitted := [];
                   stdout := [PrintGeneratingFor (length frame)] |} 0 Hi) as H.
  destruct (batch_loop run out _ 0 frame) as [b [e|]]; exact H.
Qed.

(** A batch returns exactly when no row raises. *)
Lemma batch_returns_iff run frame out :
  (text_to_speech_batch run frame out).2 = inr tt <->
  Forall (fun row => raises row = None) frame.
Proof.
  rewrite <- (batch_loop_completes run out frame
                {| df := frame; submitted := [];
                   stdout := [PrintGeneratingFor (length frame)] |} 0).
  unfold text_to_speech_batch.
  destruct (batch_loop run out _ 0 frame) as [b [e|]]; simpl;
    split; (reflexivity || discriminate).
Qed.

Lemma no_tokens_blank : forall cs,
  Py.count_tokens_from false cs = 0%nat -> forallb Py.isspace cs = true.
Proof.
  induction cs as [|c cs IH]; simpl; [reflexivity|].
  destruct (Py.isspace c); [exact IH | discriminate].
Qed.

Lemma no_tokens_strip_is_empty s :
  Py.count_tokens s = 0%nat -> Py.strip_is_empty s = true.
Proof. apply no_tokens_blank. Qed.

Lemma count_partition {A} (f : A -> bool) (l : list A) :
  length l
  = (length (List.filter (fun x => negb (f x)) l) + length (List.filter f l))%nat.
Proof.
  induction l as [|x l IH]; simpl; [reflexivity|].
  destruct (f x); simpl; lia.
Qed.

(** C8, as the code has it. A record whose text is missing, empty or only
    white space is never handed to [generate_audio] and stays in the table
    unchanged; this covers every record with [word_count = 0] as long as
    [word_count] is the token count of [text]. The driver itself never
    reads [word_count]. *)
Theorem blank_page_never_submitted run frame out idx row :
  frame !! idx = Some row ->
  no_text row = true \/ (Df.word_count row = 0 /\ word_count_consistent row) ->
  let b := (text_to_speech_batch run frame out).1 in
  (idx ∉ map sub_idx (submitted b)) /\ df b !! idx = Some row.
Proof.
  intros Hrow Hblank b.
  assert (Hno : no_text row = true).
  { destruct Hblank as [H | [Hzero Hcons]]; [exact H|].
    unfold word_count_consistent in Hcons. unfold no_text.
    destruct (Df.text row) as [|t|]; [reflexivity | | contradiction].
    apply no_tokens_strip_is_empty. lia. }
  assert (Hnot : idx ∉ text_indices 0 (reached frame)).
  { rewrite elem_of_text_indices. intros (row' & _ & Hrow' & Htext).
    rewrite Nat.sub_0_r in Hrow'. apply reached_lookup in Hrow'.
    rewrite Hrow in Hrow'. injection Hrow' as <-.
    rewrite (no_text_has_text row Hno) in Htext. discriminate. }
  split.
  - subst b. rewrite batch_submitted. exact Hnot.
  - subst b. rewrite batch_untouched by exact Hnot. exact Hrow.
Qed.

(** An instance: the second of two pages holds nothing but blanks. *)
Lemma blank_page_never_submitted_witness :
  let frame := [df_row 1 (Some "Hello") 1 "book/page_01.jpg" None;
                df_row 3 (Some "  ") 0 "book/page_03.jpg" None] in
  let b := (text_to_speech_batch always_ok frame "book/audio").1 in
  (1%nat ∉ map sub_idx (submitted b)) /\
  df b !! 1%nat = Some (df_row 3 (Some "  ") 0 "book/page_03.jpg" None).
Proof.
  apply (blank_page_never_submitted always_ok
           [df_row 1 (Some "Hello") 1 "book/page_01.jpg" None;
            df_row 3 (Some "  ") 0 "book/page_03.jpg" None] "book/audio" 1%nat).
  - reflexivity.
  - left. reflexivity.
Defined.

(** C8, as stated, fails: a record with [word_count = 0] whose text is not
    blank is handed to the synthesis collaborator. *)
Lemma zero_word_count_is_submitted :
  let row := df_row 1 (Some "Hello") 0 "book/page_01.jpg" None in
  let b := (text_to_speech_batch always_ok [row] "book/audio").1 in
  Df.word_count row = 0 /\
  ~ (0%nat ∉ map sub_idx (submitted b)).
Proof. split; [reflexivity|]. intros H. apply H. vm_compute. left. Qed.

(** A page whose text is a single no-break space is blank to
    [str.strip()], and skipped. *)
Example no_break_space_page_is_skipped :
  submitted
    (text_to_speech_batch always_ok
       [df_row 1 (Some no_break_space) 0 "book/page_01.jpg" None] "book/audio").1
  = [].
Proof. reflexivity. Qed.

(** C3, as the code has it. The driver never looks at [audio_path]: a run
    submits every record with text to speak that it gets to, which is
    every such record of the table unless a cell of the wrong type (a text
    that is not a [str], a page number that is not an integer) ends the
    run with an exception; and a second run over the table the first run
    left submits exactly the same records again. *)
Theorem rerun_submits_same_records run1 run2 frame out :
  let first := text_to_speech_batch run1 frame out in
  let second := text_to_speech_batch run2 (csv_after frame first) out in
  map sub_idx (submitted second.1) = map sub_idx (submitted first.1) /\
  (forall idx, idx ∈ map sub_idx (submitted first.1) <->
               exists row, reached frame !! idx = Some row /\ has_text row = true) /\
  (reached frame = frame <-> first.2 = inr tt).
Proof.
  intros first second. split; [|split].
  - subst second first. rewrite !batch_submitted. unfold csv_after.
    destruct (text_to_speech_batch run1 frame out).2 eqn:Hend; [reflexivity|].
    apply (audio_update_reached frame), batch_frame.
  - intros idx. subst first. rewrite batch_submitted, elem_of_text_indices.
    rewrite Nat.sub_0_r. split; intros (row & H); exists row; intuition lia.
  - subst first. rewrite batch_returns_iff. split; [|apply reached_all].
    intros Hall. rewrite <- Hall. clear Hall.
    induction frame as [|row frame IH]; simpl; [constructor|].
    destruct (raises row) eqn:Hraise; [constructor|].
    constructor; [exact Hraise | exact IH].
Qed.

(** C3, as stated, fails: the second run submits page 1 again although the
    first run has recorded its audio path. *)
Lemma rerun_regenerates_audio :
  let frame := [df_row 1 (Some "Hello") 1 "book/page_01.jpg" None] in
  let first := text_to_speech_batch always_ok frame "book/audio" in
  let second := text_to_speech_batch always_ok (csv_after frame first) "book/audio" in
  (exists row, csv_after frame first !! 0%nat = Some row /\
               Df.audio_path row = Some "book/audio/page_001.wav") /\
  ~ (0%nat ∉ map sub_idx (submitted second.1)).
Proof.
  split; [eexists; split; reflexivity|].
  intros H. apply H. vm_compute. left.
Qed.

(** One row of a batch that returns: a row with text to speak is
    submitted, under its own label, with the audio file of its page
    number, and has that file recorded exactly when the binary
    succeeds. *)
Lemma batch_loop_row run out : forall rows b idx j row t n,
  Forall (fun row => raises row = None) rows ->
  rows !! j = Some row ->
  Df.text row = Df.Str t -> Py.strip_is_empty t = false ->
  Df.page_number row = Df.Int n ->
  df b !! (idx + j)%nat = Some row ->
  let path := audio_file_for out n in
  exists k,
    (length (submitted b) <= k)%nat /\
    submitted (batch_loop run out b idx rows).1 !! k
    = Some {| sub_idx := (idx + j)%nat; sub_text := t; sub_output_path := path;
              sub_result_path := generate_audio run k t path |} /\
    df (batch_loop run out b idx rows).1 !! (idx + j)%nat
    = Some (if binary_succeeds (run k t path) then set_audio_path path row else row).
Proof.
  induction rows as [|r0 rows IH];
    intros b idx [|j] row t n Hall Hj Ht Hstrip Hn Hlook path;
    try discriminate; simpl in Hj; apply Forall_cons in Hall as [Hr0 Hall].
  - injection Hj as ->. rewrite Nat.add_0_r in *.
    destruct (batch_step_submit run out b idx row t n Ht Hstrip Hn)
      as (b' & Hstep & Hsub & Hdf).
    exists (length (submitted b)). split; [lia|]. simpl. rewrite Hstep. split.
    + destruct (batch_loop_submitted_prefix run out rows b' (S idx)) as [more ->].
      rewrite Hsub, <- app_assoc. rewrite lookup_app_r by lia.
      rewrite Nat.sub_diag. reflexivity.
    + rewrite batch_loop_untouched.
      * rewrite Hdf. fold path. destruct (binary_succeeds _); [|exact Hlook].
        unfold df_at_set_audio_path. rewrite Hlook.
        apply list_lookup_insert_eq. apply lookup_lt_Some in Hlook. exact Hlook.
      * intros Hin. apply text_indices_ge in Hin. lia.
  - replace (idx + S j)%nat with (S idx + j)%nat in * by lia.
    pose proof (batch_step_cases run out b idx r0) as Hstep. rewrite Hr0 in Hstep.
    destruct Hstep as (b' & Hstep & Hcase). simpl. rewrite Hstep.
    destruct (IH b' (S idx) j row t n Hall Hj Ht Hstrip Hn) as (k & Hk & Hsub & Hdf).
    { destruct (has_text r0).
      - destruct Hcase as (call & _ & _ & [-> | [p ->]]); [exact Hlook|].
        rewrite df_at_set_audio_path_lookup_ne by lia. exact Hlook.
      - destruct Hcase as [-> _]. exact Hlook. }
    exists k. split; [|split; [exact Hsub | exact Hdf]].
    destruct (has_text r0).
    + destruct Hcase as (call & _ & Hs & _). rewrite Hs, length_app in Hk. lia.
    + destruct Hcase as [_ Hs]. rewrite Hs in Hk. exact Hk.
Qed.

Lemma batch_row run frame out idx row t n :
  Forall (fun row => raises row = None) frame ->
  frame !! idx = Some row ->
  Df.text row = Df.Str t -> Py.strip_is_empty t = false ->
  Df.page_number row = Df.Int n ->
  let b := (text_to_speech_batch run frame out).1 in
  let path := audio_file_for out n in
  exists k,
    submitted b !! k
    = Some {| sub_idx := idx; sub_text := t; sub_output_path := path;
              sub_result_path := generate_audio run k t path |} /\
    df b !! idx
    = Some (if binary_succeeds (run k t path) then set_audio_path path row else row).
Proof.
  intros Hall Hrow Ht Hstrip Hn b path. subst b. unfold text_to_speech_batch.
  destruct (batch_loop_row run out frame
              {| df := frame; submitted := [];
                 stdout := [PrintGeneratingFor (length frame)] |}
              0%nat idx row t n Hall Hrow Ht Hstrip Hn Hrow) as (k & _ & Hsub & Hdf).
  destruct (batch_loop run out _ 0 frame) as [b [e|]]; exists k; split; assumption.
Qed.

(** C5, as the code has it. On a table whose cells have the types the
    loop expects, the batch goes through the whole table whatever the
    binary does and returns [None]: the records attempted are the records
    with text to speak, each attempt either succeeded (its output path is
    the row's new [audio_path]) or failed (the row is left as it was), and
    no row is lost. *)
Theorem batch_runs_to_completion run frame out :
  Forall (fun row => raises row = None) frame ->
  let r := text_to_speech_batch run frame out in
  r.2 = inr tt /\
  map sub_idx (submitted r.1) = text_indices 0 frame /\
  attempted r.1 = (succeeded r.1 + failed r.1)%nat /\
  length (df r.1) = length frame /\
  (forall idx row, frame !! idx = Some row ->
     if has_text row then
       exists call, call ∈ submitted r.1 /\ sub_idx call = idx /\
         df r.1 !! idx
         = Some (if str_is_empty (sub_result_path call) then row
                 else set_audio_path (sub_output_path call) row)
     else df r.1 !! idx = Some row) /\
  List.last (stdout r.1) PrintCheck = PrintGenerationComplete.
Proof.
  intros Hall r.
  assert (Hret : r.2 = inr tt) by (apply batch_returns_iff, Hall).
  split; [exact Hret|]. split; [|split; [|split; [|split]]].
  - subst r. rewrite batch_submitted, (reached_all frame Hall). reflexivity.
  - unfold attempted, succeeded, failed.
    apply (count_partition (fun c => str_is_empty (sub_result_path c))).
  - symmetry. apply (Forall2_length _ _ _ (batch_frame run frame out)).
  - intros idx row Hrow. destruct (has_text row) eqn:Htext.
    + pose proof (proj1 (Forall_lookup _ _) Hall idx row Hrow) as Hraise.
      destruct (has_text_raises row Hraise Htext) as (t & n & Ht & Hstrip & Hn).
      destruct (batch_row run frame out idx row t n Hall Hrow Ht Hstrip Hn)
        as (k & Hsub & Hdf).
      eexists. split; [eapply list_elem_of_lookup_2, Hsub|]. split; [reflexivity|].
      subst r. rewrite Hdf. simpl.
      assert (Hp : str_is_empty (audio_file_for out n) = false) by apply str_not_empty.
      rewrite (generate_audio_result run k t _ Hp).
      destruct (binary_succeeds _); [|reflexivity].
      rewrite Hp. reflexivity.
    + subst r. rewrite batch_untouched; [exact Hrow|].
      rewrite (reached_all frame Hall), elem_of_text_indices.
      intros (row' & _ & Hrow' & Htext'). rewrite Nat.sub_0_r, Hrow in Hrow'.
      injection Hrow' as <-. congruence.
  - subst r. unfold text_to_speech_batch in *.
    destruct (batch_loop run out _ 0 frame) as [b [e|]]; [discriminate|].
    simpl. apply last_last.
Qed.

(** An instance: five pages, the third run of the binary times out. *)
Lemma batch_runs_to_completion_witness :
  let r := text_to_speech_batch third_run_fails five_pages "book/audio" in
  r.2 = inr tt /\
  map sub_idx (submitted r.1) = text_indices 0 five_pages /\
  attempted r.1 = (succeeded r.1 + failed r.1)%nat /\
  length (df r.1) = length five_pages /\
  (forall idx row, five_pages !! idx = Some row ->
     if has_text row then
       exists call, call ∈ submitted r.1 /\ sub_idx call = idx /\
         df r.1 !! idx
         = Some (if str_is_empty (sub_result_path call) then row
                 else set_audio_path (sub_output_path call) row)
     else df r.1 !! idx = Some row) /\
  List.last (stdout r.1) PrintCheck = PrintGenerationComplete.
Proof.
  apply (batch_runs_to_completion third_run_fails five_pages "book/audio").
  repeat constructor.
Defined.

(** C5, as stated, fails: what the batch returns does not determine the
    counts, so it cannot contain them. *)
Lemma batch_returns_no_summary :
  ~ exists summary : BatchError + unit -> nat * nat * nat,
      forall frame,
        let r := text_to_speech_batch always_ok frame "book/audio" in
        summary r.2 = (attempted r.1, succeeded r.1, failed r.1).
Proof.
  intros [summary H].
  pose proof (H []) as H0.
  pose proof (H [df_row 1 (Some "Hello") 1 "book/page_01.jpg" None]) as H1.
  vm_compute in H0, H1. congruence.
Qed.

Example partial_failure_contained :
  let b := (text_to_speech_batch third_run_fails five_pages "book/audio").1 in
  (attempted b, succeeded b, failed b) = (5, 4, 1)%nat /\
  map Df.audio_path (df b)
  = [Some "book/audio/page_001.wav"; Some "book/audio/page_002.wav"; None;
     Some "book/audio/page_004.wav"; Some "book/audio/page_005.wav"].
Proof. split; reflexivity. Qed.

(** A text column that pandas has read as numbers ends the batch at its
    first cell: [text.strip()] raises outside the [try], nothing is
    submitted and nothing is saved. *)
Example numeric_text_aborts :
  let r := text_to_speech_batch always_ok numeric_text "book/audio" in
  r.2 = inl TextNotStr /\ submitted r.1 = [] /\ csv_after numeric_text r = numeric_text.
Proof. repeat split. Qed.

(** ** Properties of the assembler *)

Lemma insert_by_page_perm rank x l : Permutation (x :: l) (insert_by_page rank x l).
Proof.
  induction l as [|y l IH]; simpl; [reflexivity|].
  destruct (sorts_before rank x y); [reflexivity|].
  rewrite Permutation_swap. now apply perm_skip.
Qed.

(** Whatever the order of ties, the sort rearranges its rows and loses
    none. *)
Lemma sort_values_perm env l : Permutation l (sort_values env l).
Proof.
  unfold sort_values. generalize (tie_rank env (map (fun r => Df.page_number r.2) l)).
  intros rank. induction l as [|x l IH]; simpl; [reflexivity|].
  rewrite <- insert_by_page_perm. now apply perm_skip.
Qed.

Lemma sorts_before_int rank a b x y :
  Df.page_number a.2 = Df.Int x -> Df.page_number b.2 = Df.Int y ->
  if sorts_before rank a b then x <= y else y <= x.
Proof.
  intros Ha Hb. unfold sorts_before, page_lt. rewrite Ha, Hb.
  destruct (Z.ltb_spec x y); [lia|].
  destruct (Z.ltb_spec y x); [lia|].
  destruct (_ <=? _)%nat; lia.
Qed.

Lemma insert_by_page_sorted rank x l :
  int_page x.2 -> Forall (fun r => int_page r.2) l ->
  StronglySorted page_le l ->
  StronglySorted page_le (insert_by_page rank x l).
Proof.
  intros [px Hx] Hint Hsorted. induction Hsorted as [|y l Hsorted IH Hy]; simpl.
  { repeat constructor. }
  apply Forall_cons in Hint as [[py Hpy] Hint].
  pose proof (sorts_before_int rank x y px py Hx Hpy) as Hcmp.
  destruct (sorts_before rank x y).
  - constructor; [now constructor|].
    constructor; [exists px, py; auto|].
    rewrite Forall_forall in Hy. apply Forall_forall. intros z Hz.
    destruct (Hy z Hz) as (py' & pz & Hy' & Hz' & Hle).
    exists px, pz. split; [exact Hx|]. split; [exact Hz'|].
    rewrite Hpy in Hy'. injection Hy' as <-. lia.
  - constructor; [apply IH, Hint|].
    rewrite <- insert_by_page_perm. constructor; [|exact Hy].
    exists py, px. auto.
Qed.

(** On integer keys the sort is by ascending key. *)
Lemma sort_values_sorted env l :
  Forall (fun r => int_page r.2) l -> StronglySorted page_le (sort_values env l).
Proof.
  unfold sort_values. generalize (tie_rank env (map (fun r => Df.page_number r.2) l)).
  intros rank. induction 1 as [|x l Hx Hint IH]; simpl; [constructor|].
  apply insert_by_page_sorted; [exact Hx | | exact IH].
  clear IH Hx. induction Hint as [|y l Hy Hint IH]; simpl; [constructor|].
  eapply Permutation_Forall; [apply insert_by_page_perm|].
  constructor; [exact Hy | exact IH].
Qed.

Lemma filter_strongly_sorted {A} (R : A -> A -> Prop) (f : A -> bool) l :
  StronglySorted R l -> StronglySorted R (List.filter f l).
Proof.
  induction 1 as [|x l Hsorted IH Hx]; simpl; [constructor|].
  destruct (f x); [|exact IH].
  constructor; [exact IH|].
  rewrite Forall_forall in Hx. apply Forall_forall. intros y Hy.
  apply Hx. apply list_elem_of_In in Hy. apply List.filter_In in Hy as [Hy _].
  now apply list_elem_of_In.
Qed.

Lemma elem_of_iterrows_from r : forall frame idx,
  r ∈ iterrows_from idx frame <->
  (idx <= r.1)%nat /\ frame !! (r.1 - idx)%nat = Some r.2.
Proof.
  induction frame as [|row frame IH]; intros idx; simpl.
  { split; [intros H; inversion H | intros [_ H]; discriminate]. }
  rewrite elem_of_cons, IH. destruct r as [i row']. simpl. split.
  - intros [[= -> ->] | [Hle Hlook]].
    + rewrite Nat.sub_diag. auto.
    + split; [lia|]. replace (i - idx)%nat with (S (i - S idx)) by lia. exact Hlook.
  - intros [Hle Hlook]. destruct (Nat.eq_dec i idx) as [->|Hne].
    + rewrite Nat.sub_diag in Hlook. simpl in Hlook. left. congruence.
    + right. split; [lia|].
      replace (i - idx)%nat with (S (i - S idx)) in Hlook by lia. exact Hlook.
Qed.

(** The selection consists of the rows of the table that have an audio
    path, each under its own label. *)
Lemma elem_of_audio_rows env frame r :
  r ∈ audio_rows env frame <-> frame !! r.1 = Some r.2 /\ is_Some (Df.audio_path r.2).
Proof.
  unfold audio_rows. rewrite <- sort_values_perm.
  rewrite list_elem_of_In, List.filter_In, <- list_elem_of_In.
  unfold iterrows. rewrite elem_of_iterrows_from, Nat.sub_0_r.
  unfold notna. destruct (Df.audio_path r.2); split.
  - intros [[_ H] _]. eauto.
  - intros [H _]. split; [split; [lia | exact H] | reflexivity].
  - intros [_ H]. discriminate.
  - intros [_ [? H]]. discriminate.
Qed.

(** On a table with integer page numbers the selection is laid out by
    ascending page number. *)
Lemma audio_rows_sorted env frame :
  Forall int_page frame -> StronglySorted page_le (audio_rows env frame).
Proof.
  intros Hint. unfold audio_rows. apply sort_values_sorted.
  apply Forall_forall. intros r Hr.
  apply list_elem_of_In, List.filter_In in Hr as [Hr _]. apply list_elem_of_In in Hr.
  unfold iterrows in Hr. apply elem_of_iterrows_from in Hr as [_ Hr].
  rewrite Forall_forall in Hint. apply Hint. apply list_elem_of_lookup. eauto.
Qed.

Lemma audio_rows_empty env frame :
  audio_rows env frame = [] <-> forall row, row ∈ frame -> Df.audio_path row = None.
Proof.
  split.
  - intros Hnil row Hin. apply list_elem_of_lookup in Hin as [i Hi].
    destruct (Df.audio_path row) as [p|] eqn:Hp; [|reflexivity].
    assert (Hsel : (i, row) ∈ audio_rows env frame).
    { apply elem_of_audio_rows. simpl. rewrite Hp. eauto. }
    rewrite Hnil in Hsel. inversion Hsel.
  - intros Hall. destruct (audio_rows env frame) as [|r rows] eqn:Hrows; [reflexivity|].
    assert (Hsel : r ∈ audio_rows env frame) by (rewrite Hrows; left).
    apply elem_of_audio_rows in Hsel as [Hlook [p Hp]].
    rewrite (Hall r.2) in Hp; [discriminate|].
    apply list_elem_of_lookup. eauto.
Qed.

Lemma cat_channels_shape0 : forall a b,
  shape0 (cat_channels a b) = Nat.min (shape0 a) (shape0 b).
Proof.
  unfold shape0. induction a as [|ca a IH]; intros [|cb b]; simpl; auto.
Qed.


Lemma torch_zeros_inv c k t :
  torch_zeros c k = inr t ->
  buffer_size k /\ t = replicate c (replicate (Z.to_nat k) 0%float).
Proof.
  unfold torch_zeros, buffer_size.
  destruct (Z.ltb_spec k 0); [discriminate|].
  destruct (Z.ltb_spec int64_max k); [discriminate|].
  intros [= <-]. split; [lia | reflexivity].
Qed.

Lemma torch_zeros_error c k : torch_zeros c k <> inl NoAudioFilesFound.
Proof.
  unfold torch_zeros. destruct (k <? 0); [discriminate|].
  destruct (int64_max <? k); discriminate.
Qed.


Lemma torch_cat_error ts : torch_cat ts <> inl NoAudioFilesFound.
Proof.
  induction ts as [|t ts IH]; simpl; [discriminate|].
  destruct ts as [|t' ts]; [discriminate|].
  destruct (torch_cat (t' :: ts)) as [e|r]; [exact IH|].
  destruct (_ =? _)%nat; discriminate.
Qed.

(** *** The loading loop *)

Section LoadLoop.

Context (env : AudioEnv) (d : float) (n : nat).

(** Unfold one iteration and name the file test of its row. *)
Ltac unfold_iteration idx row :=
  cbn [load_loop List.filter];
  change (path_exists env (default "" (Df.audio_path row)))
    with (on_disk env (idx, row)).

(** When the loop finishes, the clips are those of the selected rows whose
    file exists, in selection order, and one warning was printed for each
    row it skipped. *)
Lemma load_loop_clips : forall rows out ps,
  load_loop env d n rows = (out, inr ps) ->
  clips ps = List.filter (on_disk env) rows /\
  out = map warning_for (List.filter (not_on_disk env) rows).
Proof.
  induction rows as [|[idx row] rows IH]; intros out ps.
  { simpl. intros [= <- <-]. auto. }
  unfold_iteration idx row. unfold not_on_disk at 1.
  destruct (on_disk env (idx, row)); cbn [negb].
  - destruct (load_waveform env _) as [waveform|]; [|discriminate].
    destruct (_ <? _).
    + destruct (silence_samples d) as [k|]; [|discriminate].
      destruct (torch_zeros _ k) as [|silence]; [discriminate|].
      destruct (load_loop env d n rows) as [out' [e|ps']]; [discriminate|].
      intros [= <- <-]. destruct (IH _ _ eq_refl) as [Hc Ho].
      simpl. rewrite Hc. auto.
    + destruct (load_loop env d n rows) as [out' [e|ps']]; [discriminate|].
      intros [= <- <-]. destruct (IH _ _ eq_refl) as [Hc Ho].
      simpl. rewrite Hc. auto.
  - destruct (load_loop env d n rows) as [out' [e|ps']]; [discriminate|].
    intros [= <- <-]. destruct (IH _ _ eq_refl) as [Hc Ho].
    simpl. rewrite <- Ho. auto.
Qed.

(** A row whose file is missing contributes a warning and nothing else:
    the outcome of the loop is that of the rows after it. *)
Lemma load_loop_skip r rows :
  on_disk env r = false ->
  load_loop env d n (r :: rows)
  = (warning_for r :: (load_loop env d n rows).1, (load_loop env d n rows).2).
Proof.
  destruct r as [idx row]. unfold on_disk. simpl. intros ->. simpl.
  destruct (load_loop env d n rows). reflexivity.
Qed.

(** The loop never raises the "no audio files" error. *)
Lemma load_loop_error : forall rows,
  (load_loop env d n rows).2 <> inl NoAudioFilesFound.
Proof.
  induction rows as [|[idx row] rows IH]; simpl; [discriminate|].
  destruct (negb _).
  - destruct (load_loop env d n rows). exact IH.
  - destruct (load_waveform env _); [|discriminate].
    destruct (_ <? _).
    + destruct (silence_samples d) as [k|]; [|discriminate].
      destruct (torch_zeros _ k) as [e0|silence] eqn:Hz;
        [simpl; intros [= ->]; exact (torch_zeros_error _ _ Hz)|].
      destruct (load_loop env d n rows) as [out [e|ps]]; simpl in *;
        [exact IH | discriminate].
    + destruct (load_loop env d n rows) as [out [e|ps]]; simpl in *;
        [exact IH | discriminate].
Qed.


(** The number of silence buffers in a finished run. *)
Lemma load_loop_silence : forall rows out ps,
  load_loop env d n rows = (out, inr ps) ->
  count_silence ps = length (List.filter (silence_follows env n) rows).
Proof.
  unfold count_silence.
  induction rows as [|[idx row] rows IH]; intros out ps.
  { simpl. intros [= <- <-]. reflexivity. }
  unfold_iteration idx row. unfold silence_follows at 1.
  destruct (on_disk env (idx, row)); cbn [negb andb fst].
  - destruct (load_waveform env _) as [waveform|]; [|discriminate].
    destruct (_ <? _).
    + destruct (silence_samples d) as [k|]; [|discriminate].
      destruct (torch_zeros _ k) as [|silence]; [discriminate|].
      destruct (load_loop env d n rows) as [out' [e|ps']]; [discriminate|].
      intros [= <- <-]. simpl. rewrite (IH _ _ eq_refl). reflexivity.
    + destruct (load_loop env d n rows) as [out' [e|ps']]; [discriminate|].
      intros [= <- <-]. simpl. apply (IH _ _ eq_refl).
  - destruct (load_loop env d n rows) as [out' [e|ps']]; [discriminate|].
    intros [= <- <-]. apply (IH _ _ eq_refl).
Qed.

End LoadLoop.


(** C6. [combine_audiobook] raises its "No audio files found in CSV" error
    exactly when no row of the table has an audio path; with at least one
    audio path it goes on to the loading loop and never ends in that
    error. *)
Theorem no_audio_error_iff_no_audio_path env frame silence_duration :
  (combine_audiobook env frame silence_duration).2 = inl NoAudioFilesFound <->
  forall row, row ∈ frame -> Df.audio_path row = None.
Proof.
  rewrite <- (audio_rows_empty env). unfold combine_audiobook, waveforms.
  destruct (audio_rows env frame) as [|r rows] eqn:Hrows.
  { simpl. tauto. }
  cbn [length Nat.eqb].
  pose proof (load_loop_error env silence_duration (S (length rows)) (r :: rows)) as Hloop.
  destruct (load_loop env silence_duration (S (length rows)) (r :: rows))
    as [out [e|ps]]; cbn [snd] in *.
  - split; [intros [= ->]; exfalso; now apply Hloop | discriminate].
  - pose proof (torch_cat_error (map piece_tensor ps)) as Hcat.
    destruct (torch_cat (map piece_tensor ps)); cbn [snd];
      split; try discriminate.
    intros Herr. exfalso. apply Hcat. exact Herr.
Qed.

(** C4, as the code has it. On a table whose page numbers are integers,
    the clips of a finished run are the selected records whose file exists,
    laid out by ascending page number: a page with a smaller number comes
    before every page with a larger one.  Records with the same page number
    come in the order the sort leaves them in, which no source path
    enters. *)
Theorem clips_in_page_order env frame silence_duration out ps :
  Forall int_page frame ->
  waveforms env frame silence_duration = (out, inr ps) ->
  clips ps = List.filter (on_disk env) (audio_rows env frame) /\
  StronglySorted page_le (clips ps) /\
  (forall r, r ∈ clips ps -> frame !! r.1 = Some r.2).
Proof.
  intros Hint. unfold waveforms.
  destruct (length (audio_rows env frame) =? 0)%nat; [discriminate|].
  destruct (load_loop env silence_duration _ (audio_rows env frame)) as [out' r] eqn:Hloop.
  intros [= <- ->]. apply load_loop_clips in Hloop as [Hclips _].
  rewrite Hclips. split; [reflexivity|]. split.
  - apply filter_strongly_sorted, audio_rows_sorted, Hint.
  - intros r Hr. apply list_elem_of_In, List.filter_In in Hr as [Hr _].
    apply list_elem_of_In, elem_of_audio_rows in Hr as [Hr _]. exact Hr.
Qed.

(** An instance: pages 1 to 3, all files present. *)
Lemma clips_in_page_order_witness :
  clips three_pages_waveforms
  = List.filter (on_disk all_present) (audio_rows all_present three_pages) /\
  StronglySorted page_le (clips three_pages_waveforms) /\
  (forall r, r ∈ clips three_pages_waveforms -> three_pages !! r.1 = Some r.2).
Proof.
  apply (clips_in_page_order all_present three_pages short_silence
           [PrintCombining 3]).
  - repeat constructor; eexists; reflexivity.
  - reflexivity.
Defined.

(** C4, as stated, fails: two records with page number 1 come out
    "book/b_1.jpg" before "book/a_1.jpg", not ordered by source path. *)
Lemma ties_not_broken_by_source_path :
  exists out ps,
    waveforms all_present two_page_ones short_silence = (out, inr ps) /\
    map (fun r => Df.file_path r.2) (clips ps) = ["book/b_1.jpg"; "book/a_1.jpg"] /\
    ~ StronglySorted spec_order (clips ps).
Proof.
  eexists _, _. split; [reflexivity|]. split; [reflexivity|].
  intros Hsorted. apply StronglySorted_inv in Hsorted as [_ Hhd].
  apply Forall_cons in Hhd as [(x & y & Hx & Hy & Hord) _].
  simpl in Hx, Hy. injection Hx as <-. injection Hy as <-.
  destruct Hord as [Hlt | [_ Hleb]]; [lia | discriminate].
Qed.

(** This does not hinge on the order in which the sort leaves equal keys:
    it sees the page numbers only, so it leaves the two rows in the same
    positions whichever of them the table lists first, and one of the two
    results is not in source-path order. *)
Lemma key_sort_cannot_order_by_source_path env :
  ~ (StronglySorted spec_order (audio_rows env [b_1; a_1]) /\
     StronglySorted spec_order (audio_rows env [a_1; b_1])).
Proof.
  unfold audio_rows, sort_values. cbn [iterrows iterrows_from List.filter notna b_1 a_1
    df_row Df.audio_path snd map Df.page_number foldr insert_by_page].
  set (rank := tie_rank env _).
  assert (Hbad : forall i j, ~ spec_order (i, b_1) (j, a_1)).
  { intros i j (x & y & Hx & Hy & Hord). simpl in Hx, Hy.
    injection Hx as <-. injection Hy as <-.
    destruct Hord as [Hlt | [_ Hleb]]; [lia | discriminate]. }
  unfold sorts_before. cbn [page_lt b_1 a_1 df_row Df.page_number snd fst].
  rewrite Z.ltb_irrefl.
  destruct (rank 0 <=? rank 1)%nat; intros [Hfirst Hsecond];
    [apply StronglySorted_inv in Hfirst as [_ H]
    |apply StronglySorted_inv in Hsecond as [_ H]];
    apply Forall_cons in H as [H _]; exact (Hbad _ _ H).
Qed.



Example page_2_skipped :
  (combine_audiobook page_2_deleted three_pages short_silence).1
  = [PrintCombining 3; PrintWarningNotFound "book/audio/page_002.wav";
     PrintAudiobookCreated] /\
  (exists ps, (waveforms page_2_deleted three_pages short_silence).2 = inr ps /\
              map fst (clips ps) = [0; 2]%nat).
Proof. split; [reflexivity|]. eexists. split; reflexivity. Qed.


(** C2 fails on the code. With a blank first page the two selected records
    carry the labels 1 and 2, neither of which is below
    [len(audio_rows) - 1 = 1]: both clips are there and no silence is put
    between them, where the silence law asks for one gap. *)
Theorem no_silence_after_blank_first_page :
  exists out ps,
    waveforms all_present blank_first_page 1%float = (out, inr ps) /\
    map fst (clips ps) = [1; 2]%nat /\
    count_silence ps = 0%nat /\
    count_silence ps <> (length (clips ps) - 1)%nat.
Proof.
  eexists _, _. split; [reflexivity|]. split; [reflexivity|].
  split; [reflexivity|]. simpl. discriminate.
Qed.

(** The same comparison puts silence after the last clip when the table
    lists page 2 before page 1. *)
Example trailing_silence_when_table_unordered :
  map is_silence
    (match (waveforms all_present
              [df_row 2 (Some "two") 1 "book/page_02.jpg" (Some "book/audio/page_002.wav");
               df_row 1 (Some "one") 1 "book/page_01.jpg" (Some "book/audio/page_001.wav")]
              short_silence).2 with
     | inr ps => ps
     | inl _ => []
     end)
  = [false; false; true].
Proof. reflexivity. Qed.

(** When every row of the table has audio on disk and the table is already
    in page order, labels and positions agree and the law holds: here two
    clips with one gap of [int(1.0 * 24000)] zero samples between them. *)
Example silence_between_two_pages :
  match (waveforms all_present
           [df_row 1 (Some "one") 1 "book/page_01.jpg" (Some "book/audio/page_001.wav");
            df_row 2 (Some "two") 1 "book/page_02.jpg" (Some "book/audio/page_002.wav")]
           1%float).2 with
  | inr [PageClip 0 _ _; Silence s; PageClip 1 _ _] =>
      shape0 s = 1%nat /\ Z.of_nat (shape1 s) = 24000
  | _ => False
  end.
Proof. vm_compute. split; reflexivity. Qed.

(** The length of a gap is truncated, not rounded: 2^-15 s is 0.73 samples
    and gives none. *)
Example silence_samples_truncates : silence_samples 0x1p-15%float = Some 0.
Proof. reflexivity. Qed.

(** * Further properties of the modelled code *)

(** ** The handler and the directory scan *)

Lemma rows_of_calls_from_app w : forall ps n qs,
  rows_of_calls_from w n (ps ++ qs)
  = rows_of_calls_from w n ps ++ rows_of_calls_from w (n + length ps) qs.
Proof.
  induction ps as [|p ps IH]; intros n qs; simpl.
  { rewrite Nat.add_0_r. reflexivity. }
  rewrite IH, <- app_assoc. replace (S n + length ps)%nat with (n + S (length ps))%nat by lia.
  reflexivity.
Qed.

Lemma rows_of_calls_snoc w ps p :
  rows_of_calls w (ps ++ [p])
  = rows_of_calls w ps ++ option_list (stored_row w (length ps) p).
Proof.
  unfold rows_of_calls. rewrite rows_of_calls_from_app. simpl.
  rewrite app_nil_r. reflexivity.
Qed.

Lemma process_page_output_file w p h :
  output_file (process_page w p h) = output_file h.
Proof.
  unfold process_page. destruct (processor w _ p); simpl; [|reflexivity].
  unfold append_to_csv; simpl. destruct (Py.dirname_is_empty _); reflexivity.
Qed.

Lemma process_page_csv_exact w p h :
  csv (process_page w p h)
  = csv h ++ (if Py.dirname_is_empty (output_file h) then []
              else option_list (stored_row w (length (calls h)) p)).
Proof.
  unfold process_page, stored_row. destruct (processor w _ p); simpl.
  - unfold append_to_csv; simpl. destruct (Py.dirname_is_empty _); simpl;
      [rewrite app_nil_r|]; reflexivity.
  - destruct (Py.dirname_is_empty _); rewrite app_nil_r; reflexivity.
Qed.

Lemma process_page_keeps_invariant w table p h :
  has_image_extension p = true ->
  handler_invariant w table h -> handler_invariant w table (process_page w p h).
Proof.
  intros Hext (Hset & Himg & Hcsv). split; [|split].
  - rewrite process_page_processed_files, process_page_calls, Hset.
    rewrite list_to_set_app_L. simpl.
    rewrite (right_id_L ∅ (∪)). apply (comm_L (∪)).
  - rewrite process_page_calls. apply Forall_app. split; [exact Himg|].
    constructor; [exact Hext | constructor].
  - rewrite process_page_csv_exact, process_page_output_file, process_page_calls, Hcsv.
    destruct (Py.dirname_is_empty _).
    + rewrite !app_nil_r. reflexivity.
    + rewrite rows_of_calls_snoc, app_assoc. reflexivity.
Qed.

Lemma on_created_keeps_invariant w table e h :
  handler_invariant w table h -> handler_invariant w table (on_created w e h).
Proof.
  intros Hinv. unfold on_created. destruct (is_directory e); [exact Hinv|].
  destruct (bool_decide (_ ∈ image_extensions)) eqn:Hext; simpl; [|exact Hinv].
  destruct (bool_decide (_ ∉ _)); [|exact Hinv].
  apply process_page_keeps_invariant; [exact Hext | exact Hinv].
Qed.

Lemma scan_entry_keeps_invariant w table e h :
  handler_invariant w table h -> handler_invariant w table (scan_entry w h e).
Proof.
  intros Hinv. unfold scan_entry. destruct (is_file e); [|exact Hinv].
  destruct (bool_decide (_ ∈ image_extensions)) eqn:Hext; [|exact Hinv].
  apply process_page_keeps_invariant; [exact Hext | exact Hinv].
Qed.

Lemma watch_keeps_invariant w table events : forall h,
  handler_invariant w table h -> handler_invariant w table (watch w events h).
Proof.
  unfold watch. induction events as [|e events IH]; intros h Hinv; simpl; [exact Hinv|].
  apply IH, on_created_keeps_invariant, Hinv.
Qed.

Lemma scan_keeps_invariant w table listing : forall h,
  handler_invariant w table h ->
  handler_invariant w table (foldl (scan_entry w) h listing).
Proof.
  induction listing as [|e listing IH]; intros h Hinv; simpl; [exact Hinv|].
  apply IH, scan_entry_keeps_invariant, Hinv.
Qed.

Lemma on_created_output_file w e h : output_file (on_created w e h) = output_file h.
Proof.
  unfold on_created. destruct (is_directory e); [reflexivity|].
  destruct (_ && _); [|reflexivity].
  rewrite process_page_output_file. reflexivity.
Qed.

Lemma scan_entry_output_file w e h : output_file (scan_entry w h e) = output_file h.
Proof.
  unfold scan_entry. destruct (is_file e); [|reflexivity].
  destruct (bool_decide _); [apply process_page_output_file | reflexivity].
Qed.

Lemma session_output_file w out table listing events :
  output_file (session w out table listing events) = out.
Proof.
  unfold session, process_existing_files, watch.
  assert (Hwatch : forall l h,
             output_file (foldl (fun h e => on_created w e h) h l) = output_file h).
  { induction l as [|e l IH]; intros h; simpl; [reflexivity|].
    rewrite IH. apply on_created_output_file. }
  assert (Hscan : forall l h, output_file (foldl (scan_entry w) h l) = output_file h).
  { induction l as [|e l IH]; intros h; simpl; [reflexivity|].
    rewrite IH. apply scan_entry_output_file. }
  rewrite Hwatch, Hscan. reflexivity.
Qed.

Lemma session_invariant_holds w out table listing events :
  handler_invariant w table (session w out table listing events).
Proof.
  unfold session, process_existing_files.
  apply watch_keeps_invariant, scan_keeps_invariant.
  split; [reflexivity|]. split; [constructor|].
  simpl. destruct (Py.dirname_is_empty out); rewrite app_nil_r; reflexivity.
Qed.

(** X1. When the CSV path has no directory part ([os.path.dirname] gives
    [''], on which [os.makedirs] raises), [append_to_csv] never gets to
    write: a whole session leaves the table as it found it. *)
Theorem no_directory_part_no_rows w out table listing events :
  Py.dirname_is_empty out = true ->
  csv (session w out table listing events) = table.
Proof.
  intros Hdir.
  destruct (session_invariant_holds w out table listing events) as (_ & _ & Hcsv).
  rewrite session_output_file, Hdir, app_nil_r in Hcsv. exact Hcsv.
Qed.

(** An instance: the table is to be ["pages.csv"] in the working
    directory. *)
Lemma no_directory_part_no_rows_witness :
  csv (session demo_world "pages.csv" [] [page_01_entry] [page_01_created]) = [].
Proof.
  apply (no_directory_part_no_rows demo_world "pages.csv" [] [page_01_entry]
           [page_01_created]).
  reflexivity.
Defined.



(** X3. Only paths with one of the seven image extensions (compared in
    lower case) are ever handed to the processor: directories, non-files
    and other files are passed over by the watcher and by the scan. *)
Theorem only_image_files_reach_processor w out table listing events :
  Forall (fun p => has_image_extension p = true)
    (calls (session w out table listing events)).
Proof.
  destruct (session_invariant_holds w out table listing events) as (_ & Himg & _).
  exact Himg.
Qed.

Lemma scan_calls w : forall listing h,
  calls (foldl (scan_entry w) h listing)
  = calls h ++ map entry_path (List.filter image_file listing).
Proof.
  induction listing as [|e listing IH]; intros h; simpl.
  { rewrite app_nil_r. reflexivity. }
  rewrite IH. unfold scan_entry, image_file, has_image_extension.
  destruct (is_file e); simpl; [|reflexivity].
  destruct (bool_decide _); simpl; [|reflexivity].
  rewrite process_page_calls, <- app_assoc. reflexivity.
Qed.

(** X4. [process_existing_files] on a fresh handler hands every regular
    file of the listing that has an image extension to the processor,
    once per entry and in traversal order, whether or not extraction
    succeeds. *)
Theorem scan_processes_every_image_file w out table listing :
  calls (process_existing_files w listing (new_handler out table))
  = map entry_path (List.filter image_file listing).
Proof. unfold process_existing_files. rewrite scan_calls. reflexivity. Qed.

Lemma NoDup_map_filter {A B} (f : A -> B) (g : A -> bool) l :
  NoDup (map f l) -> NoDup (map f (List.filter g l)).
Proof.
  induction l as [|x l IH]; simpl; [auto|].
  intros Hnd. apply NoDup_cons in Hnd as [Hnotin Hnd].
  destruct (g x); simpl; [|auto].
  apply NoDup_cons. split; [|auto].
  intros Hin. apply Hnotin.
  apply list_elem_of_fmap in Hin as (y & -> & Hy).
  apply list_elem_of_fmap. exists y. split; [reflexivity|].
  apply list_elem_of_In, List.filter_In in Hy as [Hy _]. now apply list_elem_of_In.
Qed.

Lemma watch_calls_nodup w events : forall h,
  processed_files h = list_to_set (calls h) ->
  NoDup (calls h) ->
  NoDup (calls (watch w events h)) /\
  processed_files (watch w events h) = list_to_set (calls (watch w events h)).
Proof.
  unfold watch. induction events as [|e events IH]; intros h Hset Hnd; simpl; [auto|].
  apply IH; unfold on_created; destruct (is_directory e); auto;
    destruct (bool_decide (_ ∈ image_extensions)); simpl; auto;
    destruct (bool_decide_reflect (src_path e ∉ processed_files h)) as [Hnew|_]; auto.
  - rewrite process_page_processed_files, process_page_calls. simpl.
    rewrite Hset, list_to_set_app_L. simpl.
    rewrite (right_id_L ∅ (∪)). apply (comm_L (∪)).
  - rewrite process_page_calls. simpl. apply NoDup_app. split; [exact Hnd|].
    split; [|apply NoDup_singleton].
    intros p Hp Hp'. apply list_elem_of_singleton in Hp' as ->.
    apply Hnew. rewrite Hset. apply elem_of_list_to_set. exact Hp.
Qed.

(** X5. In a session whose directory listing names each path once, no
    path is handed to the processor twice, and the set [processed_files]
    holds exactly the paths that were handed to it. *)
Theorem session_processes_each_path_once w out table listing events :
  NoDup (map entry_path listing) ->
  let h := session w out table listing events in
  NoDup (calls h) /\ processed_files h = list_to_set (calls h).
Proof.
  intros Hnd h. subst h. unfold session.
  apply watch_calls_nodup.
  - destruct (scan_keeps_invariant w table listing
                (add_log InfoProcessingExisting (new_handler out table))) as (Hset & _).
    + split; [reflexivity|]. split; [constructor|].
      simpl. destruct (Py.dirname_is_empty out); rewrite app_nil_r; reflexivity.
    + exact Hset.
  - unfold process_existing_files. rewrite scan_calls. simpl.
    apply NoDup_map_filter, Hnd.
Qed.

Lemma session_processes_each_path_once_witness :
  let h := session failing_world "book/pages.csv" [] [page_01_entry]
             [page_01_created; page_01_created] in
  NoDup (calls h) /\ processed_files h = list_to_set (calls h).
Proof.
  apply (session_processes_each_path_once failing_world "book/pages.csv" []
           [page_01_entry] [page_01_created; page_01_created]).
  simpl. apply NoDup_singleton.
Defined.

(** ** The page processor *)

(** X6. [PageProcessor.process] returns a page exactly when the vision
    call succeeds, the extractor's reply has all three fields, and the
    digit run of the file name (if any, digits of any script) is short
    enough for [int()]; the page then carries the extractor's text and
    word count unchanged and the resolved page number. The text read by
    the vision model is only used as the extractor's prompt. *)
Theorem process_returns_iff u o image_path page_data :
  process u o image_path = Some page_data <->
  exists page_text reply n,
    vision_chat o image_path = Some page_text /\
    extractor_chat o (text_content page_text) = Some reply /\
    reply_page_number reply = Some n /\
    reply_text reply = Some (text page_data) /\
    reply_word_count reply = Some (word_count page_data) /\
    page_number page_data = resolved_page_number u image_path n /\
    (forall ds, Py.re_search_digits u (Py.code_points (Py.stem image_path)) = Some ds ->
                (length ds <= Py.max_str_digits)%nat).
Proof.
  unfold process, image2text. split.
  - destruct (vision_chat o image_path) as [page_text|]; [|discriminate].
    intros Hjson. exists page_text.
    destruct (extractor_chat o (text_content page_text)) as [reply|] eqn:Hchat.
    2:{ unfold text2json in Hjson. rewrite Hchat in Hjson.
        destruct (Py.re_search_digits _ _) as [ds|]; [destruct (Py.int_of_digits u ds)|];
          discriminate. }
    exists reply.
    destruct (text2json_page_number u o page_text image_path reply page_data Hchat Hjson)
      as (n & Hn & Hnum).
    exists n. split; [reflexivity|]. split; [reflexivity|]. split; [exact Hn|].
    unfold text2json, model_validate in Hjson. rewrite Hchat, Hn in Hjson.
    assert (Hshort : forall ds,
               Py.re_search_digits u (Py.code_points (Py.stem image_path)) = Some ds ->
               (length ds <= Py.max_str_digits)%nat).
    { intros ds Hds. rewrite Hds in Hjson. unfold Py.int_of_digits in Hjson.
      destruct (Nat.ltb_spec Py.max_str_digits (length ds)); [discriminate|lia]. }
    destruct (match Py.re_search_digits u (Py.code_points (Py.stem image_path)) with
              | Some ds => Py.int_of_digits u ds
              | None => Some 0
              end) as [m|]; [|discriminate].
    destruct (reply_text reply) as [rt|]; [|discriminate].
    destruct (reply_word_count reply) as [rw|]; [|discriminate].
    destruct (m >? 0); injection Hjson as <-; simpl; eauto 10.
  - intros (page_text & reply & n & -> & Hchat & Hrn & Ht & Hw & Hnum & Hshort).
    unfold text2json, model_validate. rewrite Hchat, Hrn, Ht, Hw.
    unfold resolved_page_number in Hnum.
    destruct page_data as [pn pt pw]. simpl in *.
    destruct (Py.re_search_digits u (Py.code_points (Py.stem image_path))) as [ds|].
    + unfold Py.int_of_digits.
      destruct (Nat.ltb_spec Py.max_str_digits (length ds)) as [Hlt|_].
      { specialize (Hshort ds eq_refl). lia. }
      destruct (Py.decimal_value u 0 ds >? 0); rewrite Hnum; reflexivity.
    + simpl. rewrite Hnum. reflexivity.
Qed.

(** ** The synthesis driver *)

(** X7. [text_to_speech_batch] writes nothing but the audio column: the
    frame it saves has the rows of the frame it read, in the same order,
    each either untouched or with only [audio_path] replaced. *)
Theorem batch_only_writes_audio_column run frame out :
  Forall2 audio_update frame (df (text_to_speech_batch run frame out).1).
Proof. apply batch_frame. Qed.

(** X8. On a table whose cells have the types the loop expects, the batch
    runs the binary exactly once for every row with text to speak, on that
    text and on the file [page_<NNN>.wav] of the output directory (the
    path as pathlib writes it), and the saved row gets that file as its
    [audio_path] exactly when the run ends with exit code 0 and the file
    in place; after a failed run (non-zero exit, no file, timeout, other
    exception) the row is saved as it was read, old [audio_path]
    included. *)
Theorem batch_records_audio_on_success run frame out idx row t n :
  Forall (fun row => raises row = None) frame ->
  frame !! idx = Some row ->
  Df.text row = Df.Str t -> Py.strip_is_empty t = false ->
  Df.page_number row = Df.Int n ->
  let b := (text_to_speech_batch run frame out).1 in
  let path := audio_file_for out n in
  exists k,
    submitted b !! k
    = Some {| sub_idx := idx; sub_text := t; sub_output_path := path;
              sub_result_path := generate_audio run k t path |} /\
    (forall k' call, submitted b !! k' = Some call -> sub_idx call = idx -> k' = k) /\
    df b !! idx
    = Some (if binary_succeeds (run k t path) then set_audio_path path row else row).
Proof.
  intros Hall Hrow Ht Hstrip Hn b path.
  destruct (batch_row run frame out idx row t n Hall Hrow Ht Hstrip Hn)
    as (k & Hsub & Hdf).
  exists k. split; [exact Hsub|]. split; [|exact Hdf].
  intros k' call Hcall Hidx.
  pose proof (batch_submitted run frame out) as Hmap.
  rewrite (reached_all frame Hall) in Hmap.
  apply (NoDup_lookup (text_indices 0 frame) k' k idx (text_indices_nodup frame 0));
    rewrite <- Hmap, list_lookup_fmap.
  - subst b. rewrite Hcall. simpl. rewrite Hidx. reflexivity.
  - rewrite Hsub. reflexivity.
Qed.

(** An instance: page 3 of five, whose run times out, keeps its empty
    audio path. *)
Lemma batch_records_audio_on_success_witness :
  let b := (text_to_speech_batch third_run_fails five_pages "book/audio").1 in
  let path := audio_file_for "book/audio" 3 in
  exists k,
    submitted b !! k
    = Some {| sub_idx := 2; sub_text := "three"; sub_output_path := path;
              sub_result_path := generate_audio third_run_fails k "three" path |} /\
    (forall k' call, submitted b !! k' = Some call -> sub_idx call = 2%nat -> k' = k) /\
    df b !! 2%nat
    = Some (if binary_succeeds (third_run_fails k "three" path)
            then set_audio_path path (df_row 3 (Some "three") 1 "book/page_03.jpg" None)
            else df_row 3 (Some "three") 1 "book/page_03.jpg" None).
Proof.
  apply (batch_records_audio_on_success third_run_fails five_pages "book/audio" 2%nat
           (df_row 3 (Some "three") 1 "book/page_03.jpg" None) "three" 3);
    [repeat constructor | reflexivity ..].
Defined.

(** The output directory is written the way pathlib normalises it. *)
Example audio_file_in_normal_form :
  audio_file_for "./book//audio/" 7 = "book/audio/page_007.wav".
Proof. reflexivity. Qed.

Lemma list_ascii_of_string_app s1 s2 :
  list_ascii_of_string (s1 ++ s2)%string
  = list_ascii_of_string s1 ++ list_ascii_of_string s2.
Proof. induction s1 as [|c s1 IH]; simpl; [reflexivity | now rewrite IH]. Qed.

Lemma list_ascii_of_string_inj s1 s2 :
  list_ascii_of_string s1 = list_ascii_of_string s2 -> s1 = s2.
Proof.
  intros H. rewrite <- (string_of_list_ascii_of_string s1),
    <- (string_of_list_ascii_of_string s2), H. reflexivity.
Qed.

Lemma string_app_inv_head s t1 t2 : (s ++ t1 = s ++ t2)%string -> t1 = t2.
Proof. induction s as [|c s IH]; simpl; [auto|]. intros [= H]. auto. Qed.

Lemma string_app_inv_tail s1 s2 t : (s1 ++ t = s2 ++ t)%string -> s1 = s2.
Proof.
  intros H. apply list_ascii_of_string_inj.
  apply (f_equal list_ascii_of_string) in H.
  rewrite !list_ascii_of_string_app in H. now apply app_inv_tail in H.
Qed.

(** Zero padding is a run of [D0] digits in front of the number. *)
Lemma zero_padding k d :
  (string_of_list_ascii (replicate k "0"%char) ++ NilEmpty.string_of_uint d)%string
  = NilEmpty.string_of_uint (Nat.iter k Decimal.D0 d).
Proof.
  induction k as [|k IH]; [reflexivity|].
  change (String "0" (string_of_list_ascii (replicate k "0"%char)
                       ++ NilEmpty.string_of_uint d)%string
          = String "0" (NilEmpty.string_of_uint (Nat.iter k Decimal.D0 d))).
  f_equal. exact IH.
Qed.

Lemma of_uint_zero_padding k d : N.of_uint (Nat.iter k Decimal.D0 d) = N.of_uint d.
Proof. induction k as [|k IH]; simpl; [reflexivity | exact IH]. Qed.

Lemma to_uint_nonnil n : N.to_uint n <> Decimal.Nil.
Proof. destruct n as [|p]; simpl; [discriminate | apply Unsigned.to_uint_nonnil]. Qed.

(** An unsigned decimal never starts with a minus sign. *)
Lemma parse_unsigned d :
  parse_decimal (NilEmpty.string_of_uint d) = Some (Z.of_N (N.of_uint d)).
Proof.
  destruct d;
    match goal with
    | |- parse_decimal (NilEmpty.string_of_uint ?u) = _ =>
        change (parse_decimal (NilEmpty.string_of_uint u))
          with ((fun v => Z.of_N (N.of_uint v))
                  <$> NilEmpty.uint_of_string (NilEmpty.string_of_uint u));
        rewrite (NilEmpty.usu u); reflexivity
    end.
Qed.

Lemma parse_format_03d n : parse_decimal (Py.format_03d n) = Some n.
Proof.
  unfold Py.format_03d. cbv zeta.
  assert (Hdigits : NilZero.string_of_uint (N.to_uint (Z.abs_N n))
                    = NilEmpty.string_of_uint (N.to_uint (Z.abs_N n))).
  { pose proof (to_uint_nonnil (Z.abs_N n)).
    destruct (N.to_uint (Z.abs_N n)); [contradiction | reflexivity ..]. }
  rewrite Hdigits.
  set (k := (3 - _)%nat). rewrite zero_padding.
  set (padded := Nat.iter k Decimal.D0 (N.to_uint (Z.abs_N n))).
  assert (Hvalue : Z.of_N (N.of_uint padded) = Z.abs n).
  { subst padded. rewrite of_uint_zero_padding, DecimalN.Unsigned.of_to.
    apply N2Z.inj_abs_N. }
  destruct (Z.ltb_spec n 0) as [Hneg|Hpos].
  - change (parse_decimal ("-" ++ NilEmpty.string_of_uint padded))
      with ((fun u => - Z.of_N (N.of_uint u))
              <$> NilEmpty.uint_of_string (NilEmpty.string_of_uint padded)).
    rewrite NilEmpty.usu. simpl. rewrite Hvalue. f_equal. lia.
  - change ("" ++ NilEmpty.string_of_uint padded)%string
      with (NilEmpty.string_of_uint padded).
    rewrite parse_unsigned, Hvalue. f_equal. lia.
Qed.

Lemma uint_no_slash d : Py.rfind "/" (NilZero.string_of_uint d) = None.
Proof.
  assert (H : forall u, Py.rfind "/" (NilEmpty.string_of_uint u) = None)
    by (induction u; simpl; rewrite ?IHu; reflexivity).
  destruct d; [reflexivity | apply H ..].
Qed.

Lemma zeros_no_slash k :
  Py.rfind "/" (string_of_list_ascii (replicate k "0"%char)) = None.
Proof. induction k as [|k IH]; simpl; [|rewrite IH]; reflexivity. Qed.

(** The file name of a page is a single path component. *)
Lemma audio_filename_no_slash n :
  Py.rfind "/" ("page_" ++ Py.format_03d n ++ ".wav")%string = None.
Proof.
  apply rfind_app. split; [reflexivity|]. apply rfind_app. split; [|reflexivity].
  unfold Py.format_03d. cbv zeta. apply rfind_app. split.
  - destruct (n <? 0); reflexivity.
  - apply rfind_app. split; [apply zeros_no_slash | apply uint_no_slash].
Qed.

(** X9. The audio file name determines the page number: two pages get the
    same file in an output directory exactly when they have the same page
    number. Clips of different pages never overwrite each other; rows that
    share a page number share (and overwrite) one file. *)
Theorem audio_file_per_page_number out n m :
  audio_file_for out n = audio_file_for out m <-> n = m.
Proof.
  split; [|intros ->; reflexivity].
  unfold audio_file_for. intros H.
  apply (f_equal (fun s => List.last (Py.split_on "/" s) "")) in H.
  rewrite !div_last_component in H by (apply audio_filename_no_slash || reflexivity).
  apply (string_app_inv_head "page_") in H. apply string_app_inv_tail in H.
  apply (f_equal parse_decimal) in H. rewrite !parse_format_03d in H.
  now injection H.
Qed.

(** ** The assembler *)

Lemma cat_channels_shape1 a b :
  shape0 a = shape0 b -> shape1 (cat_channels a b) = (shape1 a + shape1 b)%nat.
Proof.
  destruct a as [|ca a], b as [|cb b]; simpl; try discriminate; [reflexivity|].
  intros _. apply length_app.
Qed.

Lemma torch_cat_shape : forall ts t,
  torch_cat ts = inr t ->
  Forall (fun t' => shape0 t' = shape0 t) ts /\
  shape1 t = sum_list (map shape1 ts).
Proof.
  induction ts as [|t0 ts IH]; intros t; [discriminate|].
  destruct ts as [|t1 ts].
  { simpl. intros [= ->]. split; [repeat constructor | lia]. }
  change (torch_cat (t0 :: t1 :: ts))
    with (match torch_cat (t1 :: ts) with
          | inl e => inl e
          | inr r => if (shape0 t0 =? shape0 r)%nat then inr (cat_channels t0 r)
                     else inl CatSizeMismatch
          end).
  destruct (torch_cat (t1 :: ts)) as [e|r] eqn:Hrest; [discriminate|].
  destruct (Nat.eqb_spec (shape0 t0) (shape0 r)) as [Heq|_]; [|discriminate].
  intros [= <-]. destruct (IH r eq_refl) as [Hall Hsum].
  assert (Hshape : shape0 (cat_channels t0 r) = shape0 r).
  { rewrite cat_channels_shape0, Heq. apply Nat.min_id. }
  split.
  - constructor; [congruence|].
    eapply Forall_impl; [exact Hall|]. simpl. intros; congruence.
  - rewrite cat_channels_shape1 by exact Heq. rewrite Hsum. reflexivity.
Qed.

(** X10. The wave form a successful [combine_audiobook] writes has as many
    samples as all clips and silence buffers together, and every clip and
    buffer has its channel count: concatenation neither drops nor overlaps
    anything. *)
Theorem combined_length_is_sum env frame silence_duration out ps combined :
  waveforms env frame silence_duration = (out, inr ps) ->
  (combine_audiobook env frame silence_duration).2 = inr combined ->
  shape1 combined = sum_list (map (fun p => shape1 (piece_tensor p)) ps) /\
  Forall (fun p => shape0 (piece_tensor p) = shape0 combined) ps.
Proof.
  intros Hwave. unfold combine_audiobook. rewrite Hwave.
  destruct (torch_cat (map piece_tensor ps)) as [e|t] eqn:Hcat; [discriminate|].
  simpl. intros [= <-]. destruct (torch_cat_shape _ _ Hcat) as [Hall Hsum].
  split.
  - rewrite Hsum, map_map. reflexivity.
  - apply Forall_fmap in Hall. exact Hall.
Qed.

(** An instance: two clips of two samples and a gap of two. *)
Lemma combined_length_is_sum_witness :
  shape1 [[0.5%float; 0.25%float; 0%float; 0%float; 0.5%float; 0.25%float]]
  = sum_list (map (fun p => shape1 (piece_tensor p)) two_page_ones_waveforms) /\
  Forall (fun p => shape0 (piece_tensor p)
                   = shape0 [[0.5%float; 0.25%float; 0%float; 0%float;
                              0.5%float; 0.25%float]])
    two_page_ones_waveforms.
Proof.
  apply (combined_length_is_sum all_present two_page_ones short_silence
           [PrintCombining 2]); reflexivity.
Defined.

Lemma gaps_follow_clips_prev k prev ps :
  gaps_follow_clips k None ps -> gaps_follow_clips k prev ps.
Proof. destruct ps as [|[idx row w|s] ps]; simpl; [auto | auto | contradiction]. Qed.

Lemma load_loop_gaps env d n k : forall rows out ps,
  silence_samples d = Some k ->
  load_loop env d n rows = (out, inr ps) ->
  gaps_follow_clips k None ps.
Proof.
  intros rows out ps Hk. revert out ps.
  induction rows as [|[idx row] rows IH]; intros out ps.
  { simpl. intros [= <- <-]. exact I. }
  cbn [load_loop]. destruct (negb _).
  - destruct (load_loop env d n rows) as [out' [e|ps']]; [discriminate|].
    intros [= <- <-]. apply (IH _ _ eq_refl).
  - destruct (load_waveform env _) as [waveform|]; [|discriminate].
    destruct (_ <? _).
    + rewrite Hk. destruct (torch_zeros _ k) as [e0|silence] eqn:Hz; [discriminate|].
      apply torch_zeros_inv in Hz as [[Hpos _] ->].
      destruct (load_loop env d n rows) as [out' [e|ps']]; [discriminate|].
      intros [= <- <-]. simpl. split; [exact Hpos|]. split; [reflexivity|].
      apply (IH _ _ eq_refl).
    + destruct (load_loop env d n rows) as [out' [e|ps']]; [discriminate|].
      intros [= <- <-]. simpl. apply gaps_follow_clips_prev, (IH _ _ eq_refl).
Qed.

Lemma load_loop_no_gaps env d n : forall rows out ps,
  silence_samples d = None ->
  load_loop env d n rows = (out, inr ps) ->
  count_silence ps = 0%nat.
Proof.
  intros rows out ps Hk. revert out ps. unfold count_silence.
  induction rows as [|[idx row] rows IH]; intros out ps.
  { simpl. intros [= <- <-]. reflexivity. }
  cbn [load_loop]. destruct (negb _).
  - destruct (load_loop env d n rows) as [out' [e|ps']]; [discriminate|].
    intros [= <- <-]. apply (IH _ _ eq_refl).
  - destruct (load_waveform env _) as [waveform|]; [|discriminate].
    destruct (_ <? _).
    + rewrite Hk. discriminate.
    + destruct (load_loop env d n rows) as [out' [e|ps']]; [discriminate|].
      intros [= <- <-]. simpl. apply (IH _ _ eq_refl).
Qed.

(** X11. In the list [combine_audiobook] concatenates, silence only ever
    comes right after a clip (never first, never twice in a row), and each
    silence buffer is all zeros with the channel count of the clip before
    it and [int(silence_duration * 24000)] samples (truncated, not
    rounded). If that integer does not exist (NaN or infinite duration) a
    finished run has no silence at all. *)
Theorem silence_buffers_follow_clips env frame silence_duration out ps :
  waveforms env frame silence_duration = (out, inr ps) ->
  match silence_samples silence_duration with
  | Some k => gaps_follow_clips k None ps
  | None => count_silence ps = 0%nat
  end.
Proof.
  unfold waveforms. destruct (length (audio_rows env frame) =? 0)%nat; [discriminate|].
  destruct (load_loop env silence_duration _ (audio_rows env frame)) as [out' r] eqn:Hloop.
  intros [= <- ->].
  destruct (silence_samples silence_duration) as [k|] eqn:Hk.
  - eapply load_loop_gaps; eassumption.
  - eapply load_loop_no_gaps; eassumption.
Qed.

Lemma silence_buffers_follow_clips_witness :
  match silence_samples short_silence with
  | Some k => gaps_follow_clips k None two_page_ones_waveforms
  | None => count_silence two_page_ones_waveforms = 0%nat
  end.
Proof.
  apply (silence_buffers_follow_clips all_present two_page_ones short_silence
           [PrintCombining 2]).
  reflexivity.
Defined.

Lemma load_loop_clip_source env d n : forall rows out ps idx row t,
  load_loop env d n rows = (out, inr ps) ->
  PageClip idx row t ∈ ps ->
  (idx, row) ∈ rows /\
  path_exists env (default "" (Df.audio_path row)) = true /\
  load_waveform env (default "" (Df.audio_path row)) = Some t.
Proof.
  induction rows as [|[idx0 row0] rows IH]; intros out ps idx row t.
  { simpl. intros [= <- <-] Hin. inversion Hin. }
  cbn [load_loop]. destruct (path_exists env _) eqn:Hdisk; cbn [negb].
  - destruct (load_waveform env _) as [waveform|] eqn:Hload; [|discriminate].
    assert (Hhere : PageClip idx row t = PageClip idx0 row0 waveform ->
                    (idx, row) ∈ (idx0, row0) :: rows /\
                    path_exists env (default "" (Df.audio_path row)) = true /\
                    load_waveform env (default "" (Df.audio_path row)) = Some t).
    { intros [= -> -> ->]. split; [left | auto]. }
    assert (Hlater : forall out' ps', load_loop env d n rows = (out', inr ps') ->
                     PageClip idx row t ∈ ps' ->
                     (idx, row) ∈ (idx0, row0) :: rows /\
                     path_exists env (default "" (Df.audio_path row)) = true /\
                     load_waveform env (default "" (Df.audio_path row)) = Some t).
    { intros out' ps' Hloop Hin. destruct (IH _ _ _ _ _ Hloop Hin) as (H1 & H2 & H3).
      split; [now right | auto]. }
    destruct (_ <? _).
    + destruct (silence_samples d) as [k|]; [|discriminate].
      destruct (torch_zeros _ k) as [|silence]; [discriminate|].
      destruct (load_loop env d n rows) as [out' [e|ps']]; [discriminate|].
      intros [= <- <-] Hin.
      apply elem_of_cons in Hin as [Hin|Hin]; [now apply Hhere|].
      apply elem_of_cons in Hin as [Hin|Hin]; [discriminate|].
      eapply Hlater; [reflexivity | exact Hin].
    + destruct (load_loop env d n rows) as [out' [e|ps']]; [discriminate|].
      intros [= <- <-] Hin.
      apply elem_of_cons in Hin as [Hin|Hin]; [now apply Hhere|].
      eapply Hlater; [reflexivity | exact Hin].
  - destruct (load_loop env d n rows) as [out' [e|ps']]; [discriminate|].
    intros [= <- <-] Hin. destruct (IH _ _ _ _ _ eq_refl Hin) as (H1 & H2 & H3).
    split; [now right | auto].
Qed.

(** X12. Every clip in the list is the content of its own row's audio
    file: the file exists, [sf.read] gave its samples and rate, and the
    samples go in unchanged when the rate is 24000 and through the
    resampler (to 24000) otherwise. *)
Theorem clips_are_the_files env frame silence_duration out ps idx row t :
  waveforms env frame silence_duration = (out, inr ps) ->
  PageClip idx row t ∈ ps ->
  exists path audio sr,
    frame !! idx = Some row /\
    Df.audio_path row = Some path /\
    path_exists env path = true /\
    sf_read env path = Some (audio, sr) /\
    t = (if sr =? 24000 then audio else resample env sr 24000 audio).
Proof.
  unfold waveforms. destruct (length (audio_rows env frame) =? 0)%nat; [discriminate|].
  destruct (load_loop env silence_duration _ (audio_rows env frame)) as [out' r] eqn:Hloop.
  intros [= <- ->] Hin.
  destruct (load_loop_clip_source _ _ _ _ _ _ _ _ _ Hloop Hin) as (Hsel & Hdisk & Hload).
  apply elem_of_audio_rows in Hsel as [Hrow [path Hpath]]. simpl in *.
  rewrite Hpath in *. simpl in *.
  unfold load_waveform in Hload.
  destruct (sf_read env path) as [[audio sr]|] eqn:Hread; [|discriminate].
  injection Hload as <-.
  exists path, audio, sr. repeat (split; [assumption || reflexivity|]).
  unfold sample_rate. destruct (sr =? 24000); reflexivity.
Qed.

Lemma clips_are_the_files_witness :
  exists path audio sr,
    two_page_ones !! 1%nat = Some a_1 /\
    Df.audio_path a_1 = Some path /\
    path_exists all_present path = true /\
    sf_read all_present path = Some (audio, sr) /\
    [[0.5%float; 0.25%float]]
    = (if sr =? 24000 then audio else resample all_present sr 24000 audio).
Proof.
  apply (clips_are_the_files all_present two_page_ones short_silence
           [PrintCombining 2] two_page_ones_waveforms 1%nat a_1).
  - reflexivity.
  - right. right. left.
Defined.

Lemma load_loop_bad_silence env d n : forall rows r,
  bad_silence_duration d ->
  r ∈ rows -> silence_follows env n r = true ->
  exists e, (load_loop env d n rows).2 = inl e.
Proof.
  unfold bad_silence_duration.
  induction rows as [|[idx row] rows IH]; intros r Hbad Hin Hgap; [inversion Hin|].
  cbn [load_loop].
  change (path_exists env (default "" (Df.audio_path row)))
    with (on_disk env (idx, row)).
  destruct (on_disk env (idx, row)) eqn:Hdisk; cbn [negb].
  - destruct (load_waveform env _) as [waveform|]; [|simpl; eauto].
    destruct (Z.of_nat idx <? Z.of_nat n - 1) eqn:Hlt.
    + destruct (silence_samples d) as [k|]; [|simpl; eauto].
      destruct (torch_zeros _ k) as [e0|silence] eqn:Hz; [simpl; eauto|].
      apply torch_zeros_inv in Hz as [Hsize _]. contradiction.
    + apply elem_of_cons in Hin as [->|Hin].
      { unfold silence_follows in Hgap. simpl in Hgap.
        rewrite Hlt, andb_false_r in Hgap. discriminate. }
      destruct (IH r Hbad Hin Hgap) as [e He].
      destruct (load_loop env d n rows) as [out' [e'|ps']]; simpl in *; eauto.
      discriminate.
  - apply elem_of_cons in Hin as [->|Hin].
    { unfold silence_follows in Hgap. rewrite Hdisk in Hgap. discriminate. }
    destruct (IH r Hbad Hin Hgap) as [e He].
    destruct (load_loop env d n rows) as [out' [e'|ps']]; simpl in *; eauto.
Qed.

(** X13. [silence_duration] is checked nowhere before use: when
    [int(silence_duration * 24000)] does not exist (NaN, an infinity), is
    negative or is beyond int64, and the loop reaches a clip after which
    silence is due, the whole run ends in an exception and no audiobook is
    written. *)
Theorem bad_silence_duration_fails env frame silence_duration r :
  bad_silence_duration silence_duration ->
  r ∈ audio_rows env frame ->
  silence_follows env (length (audio_rows env frame)) r = true ->
  exists e, (combine_audiobook env frame silence_duration).2 = inl e.
Proof.
  intros Hbad Hin Hgap. unfold combine_audiobook, waveforms.
  destruct (length (audio_rows env frame) =? 0)%nat; [simpl; eauto|].
  destruct (load_loop_bad_silence env silence_duration (length (audio_rows env frame))
              (audio_rows env frame) r Hbad Hin Hgap) as [e He].
  destruct (load_loop env silence_duration _ (audio_rows env frame)) as [out [e'|ps]];
    simpl in *; [eauto | discriminate].
Qed.

(** An instance: a silence of minus half a second between two pages. *)
Lemma bad_silence_duration_fails_witness :
  exists e, (combine_audiobook all_present two_page_ones (-0.5)%float).2 = inl e.
Proof.
  apply (bad_silence_duration_fails all_present two_page_ones (-0.5)%float (0%nat, b_1)).
  - unfold bad_silence_duration.
    replace (silence_samples (-0.5)%float) with (Some (-12000)) by reflexivity.
    unfold buffer_size. lia.
  - vm_compute. left.
  - reflexivity.
Defined.

(** A duration that is negative by less than one sample is truncated to no
    samples, and is not in the way. *)
Example tiny_negative_silence_is_harmless :
  silence_samples (PrimFloat.opp 0x1p-15%float) = Some 0 /\
  exists ps,
    (waveforms all_present three_pages (PrimFloat.opp 0x1p-15%float)).2 = inr ps.
Proof. split; [reflexivity|]. eexists. reflexivity. Qed.

(** ** main.py *)


(** With [--dir .] the page is extracted and then not stored. *)
Example cli_session_in_current_directory :
  let h := session demo_world (PyPath.div "." "pages.csv") [] [page_01_entry] [] in
  calls h = [page_01] /\ csv h = [].
Proof. split; reflexivity. Qed.

(** X15. [main] starts the directory watcher exactly when
    [--process-existing] is given and neither [--generate-audio] nor
    [--combine-audiobook] is: without [--process-existing] it never
    watches, and with an audio flag it returns after the audio work. *)
Theorem watcher_runs_iff a d :
  WatchDirectory d ∈ main a <->
  d = PyPath.str (arg_dir a) /\
  arg_process_existing a = true /\
  arg_generate_audio a = false /\
  arg_combine_audiobook a = false.
Proof.
  unfold main, main_watcher.
  destruct (arg_process_existing a), (arg_generate_audio a), (arg_combine_audiobook a),
    (arg_audio_model a), (arg_audio_mmproj a), (arg_audio_decoder a); simpl;
    rewrite !elem_of_cons, ?elem_of_nil;
    (split;
     [ intros H;
       repeat (destruct H as [H|H]; [try discriminate H|]);
       try contradiction; try discriminate H;
       injection H as ->; tauto
     | intros (-> & ? & ? & ?); try discriminate; tauto ]).
Qed.

(** X16. [main] never combines without synthesizing first: a call of
    [combine_audiobook] comes right after a call of [text_to_speech_batch]
    on the same CSV file, is made only with [--combine-audiobook], and only
    when all three audio model files are given. *)
Theorem combine_follows_batch a c o :
  CombineAudiobook c o ∈ main a ->
  arg_combine_audiobook a = true /\
  is_Some (arg_audio_model a) /\ is_Some (arg_audio_mmproj a) /\
  is_Some (arg_audio_decoder a) /\
  c = PyPath.div (arg_dir a) "pages.csv" /\
  o = PyPath.div (default (arg_dir a) (arg_output_dir a)) "audiobook.wav" /\
  exists before after,
    main a = before
             ++ [TextToSpeechBatch c
                   (PyPath.div (default (arg_dir a) (arg_output_dir a)) "audio");
                 CombineAudiobook c o]
             ++ after.
Proof.
  unfold main, main_watcher.
  destruct (arg_process_existing a), (arg_generate_audio a), (arg_combine_audiobook a),
    (arg_audio_model a), (arg_audio_mmproj a), (arg_audio_decoder a); simpl;
    rewrite !elem_of_cons, ?elem_of_nil; intros H;
    repeat (destruct H as [H|H]; [try discriminate H|]);
    try contradiction; try discriminate H;
    injection H as -> ->;
    (split; [reflexivity|]); (split; [eauto|]); (split; [eauto|]);
    (split; [eauto|]); (split; [reflexivity|]); (split; [reflexivity|]).
  all: first
    [ eexists [_; _; _; _; _], [] ; reflexivity
    | eexists [_; _; _; _], [_] ; reflexivity
    | eexists [_; _; _; _], [] ; reflexivity ].
Qed.

(** An instance: [combine_args]. *)
Lemma combine_follows_batch_witness :
  arg_combine_audiobook combine_args = true /\
  is_Some (arg_audio_model combine_args) /\ is_Some (arg_audio_mmproj combine_args) /\
  is_Some (arg_audio_decoder combine_args) /\
  "book/pages.csv" = PyPath.div (arg_dir combine_args) "pages.csv" /\
  "out/audiobook.wav"
  = PyPath.div (default (arg_dir combine_args) (arg_output_dir combine_args))
      "audiobook.wav" /\
  exists before after,
    main combine_args
    = before
      ++ [TextToSpeechBatch "book/pages.csv"
            (PyPath.div (default (arg_dir combine_args) (arg_output_dir combine_args))
               "audio");
          CombineAudiobook "book/pages.csv" "out/audiobook.wav"]
      ++ after.
Proof.
  apply (combine_follows_batch combine_args "book/pages.csv" "out/audiobook.wav").
  vm_compute. do 6 right. left.
Defined.

(** ** api.py *)

(** X17. Every file name the API accepts has an extension the handler
    recognises as an image. *)
Theorem api_accepts_handler_images filename :
  allowed_file filename = true -> has_image_extension filename = true.
Proof.
  unfold allowed_file, has_image_extension, ALLOWED_EXTENSIONS, image_extensions.
  intros H. apply bool_decide_eq_true in H. apply bool_decide_eq_true.
  rewrite !elem_of_union, !elem_of_singleton in *. tauto.
Qed.

Lemma api_accepts_handler_images_witness : has_image_extension "uploads/b/P1.PNG" = true.
Proof. apply (api_accepts_handler_images "uploads/b/P1.PNG"). reflexivity. Defined.

(** The converse fails: the handler takes [.tiff] files, the API does
    not. *)
Example tiff_only_for_handler :
  has_image_extension "scan/p1.tiff" = true /\ allowed_file "scan/p1.tiff" = false.
Proof. split; reflexivity. Qed.




Example extract_text_directory_one_row :
  let h := process_page first_call_fails page_02
             (process_page first_call_fails page_01 (new_handler "book/pages.csv" [])) in
  calls h = [page_01; page_02] /\ map Csv.page_number (csv h) = [2].
Proof. split; reflexivity. Qed.

(** Without a table before and without a successful extraction there is
    nothing for [pd.read_csv] to read: the answer is 500, not 200. *)
Example extract_text_directory_no_table :
  extract_text_directory failing_world (Some "book") true None [page_01_entry] = inl 500.
Proof. reflexivity. Qed.

(** A body without a directory does not get to the 400 answer:
    [Path(None)] raises first. *)
Example extract_text_directory_no_name :
  extract_text_directory demo_world None true None [] = inl 500 /\
  extract_text_directory demo_world (Some "") true None [] = inl 400.
Proof. split; reflexivity. Qed.

(** ** The assembler on well-kept tables *)

Lemma filter_permutation {A} (f : A -> bool) (l l' : list A) :
  Permutation l l' -> Permutation (List.filter f l) (List.filter f l').
Proof.
  induction 1 as [|x l l' _ IH|x y l|l l' l'' _ IH1 _ IH2]; simpl.
  - reflexivity.
  - destruct (f x); [now apply perm_skip | exact IH].
  - destruct (f x), (f y); try reflexivity. apply perm_swap.
  - etransitivity; eassumption.
Qed.

Lemma filter_filter {A} (f g : A -> bool) (l : list A) :
  List.filter f (List.filter g l) = List.filter (fun x => g x && f x) l.
Proof.
  induction l as [|x l IH]; simpl; [reflexivity|].
  destruct (g x); simpl; [destruct (f x)|]; rewrite IH; reflexivity.
Qed.

(** X19. Every record that has an audio path whose file exists is in a
    finished audiobook exactly once, and nothing else is: the clips are a
    rearrangement of those rows of the table. *)
Theorem every_usable_record_once env frame silence_duration out ps :
  waveforms env frame silence_duration = (out, inr ps) ->
  Permutation (clips ps) (List.filter (usable env) (iterrows frame)).
Proof.
  unfold waveforms. destruct (length (audio_rows env frame) =? 0)%nat; [discriminate|].
  destruct (load_loop env silence_duration _ (audio_rows env frame)) as [out' r] eqn:Hloop.
  intros [= <- ->]. apply load_loop_clips in Hloop as [-> _].
  unfold audio_rows, usable. rewrite <- filter_filter.
  apply filter_permutation. symmetry. apply sort_values_perm.
Qed.

Lemma every_usable_record_once_witness :
  Permutation (clips two_page_ones_waveforms)
    (List.filter (usable all_present) (iterrows two_page_ones)).
Proof.
  apply (every_usable_record_once all_present two_page_ones short_silence
           [PrintCombining 2]).
  reflexivity.
Defined.

Lemma insert_by_page_head rank x l :
  match l with
  | [] => True
  | y :: _ => page_before x.2 y.2
  end ->
  insert_by_page rank x l = x :: l.
Proof.
  destruct l as [|y l]; simpl; [reflexivity|].
  intros (px & py & Hx & Hy & Hlt). unfold sorts_before, page_lt. rewrite Hx, Hy.
  destruct (Z.ltb_spec px py); [reflexivity | lia].
Qed.

(** A table in strictly ascending page order with audio everywhere is
    selected as it is, whatever the sort does with ties: there are
    none. *)
Lemma sorted_rows_identity env rank : forall frame idx,
  Forall (audio_on_disk env) frame ->
  Sorted page_before frame ->
  foldr (insert_by_page rank) [] (List.filter notna (iterrows_from idx frame))
  = iterrows_from idx frame.
Proof.
  induction frame as [|row frame IH]; intros idx Hall Hsorted; simpl; [reflexivity|].
  apply Forall_cons in Hall as [(p & Hp & _) Hall].
  apply Sorted_inv in Hsorted as [Hsorted Hhd].
  unfold notna at 1. simpl. rewrite Hp. simpl.
  rewrite (IH (S idx) Hall Hsorted).
  apply insert_by_page_head.
  destruct frame as [|row' frame]; simpl; [exact I|].
  apply HdRel_inv in Hhd. exact Hhd.
Qed.

Lemma gaps_in_order env n : forall frame idx,
  Forall (audio_on_disk env) frame ->
  (idx + length frame = n)%nat ->
  length (List.filter (silence_follows env n) (iterrows_from idx frame))
  = (n - 1 - idx)%nat /\
  List.filter (on_disk env) (iterrows_from idx frame) = iterrows_from idx frame.
Proof.
  induction frame as [|row frame IH]; intros idx Hall Hlen; simpl in *.
  { split; [lia | reflexivity]. }
  apply Forall_cons in Hall as [(p & Hp & Hex) Hall].
  destruct (IH (S idx) Hall ltac:(lia)) as [Hcount Hdisk].
  unfold silence_follows at 1, on_disk at 1 2. simpl. rewrite Hp. simpl. rewrite Hex.
  simpl. rewrite Hdisk. split; [|reflexivity].
  destruct (Z.ltb_spec (Z.of_nat idx) (Z.of_nat n - 1)); simpl; rewrite Hcount; lia.
Qed.

Lemma iterrows_from_length : forall frame idx,
  length (iterrows_from idx frame) = length frame.
Proof.
  induction frame as [|row frame IH]; intros idx; simpl; [reflexivity|].
  now rewrite IH.
Qed.

(** X20. On a table in which every row has its audio file in place and the
    rows stand in strictly ascending page order, silence falls between the
    pages and nowhere else: a finished run has one clip per row, in table
    order, and exactly one silence buffer less than clips. (Index labels
    and positions agree on such a table, and the sort has no ties to
    settle.) *)
Theorem silence_law_on_ordered_table env frame silence_duration out ps :
  Forall (audio_on_disk env) frame ->
  Sorted page_before frame ->
  waveforms env frame silence_duration = (out, inr ps) ->
  clips ps = iterrows frame /\
  count_silence ps = (length frame - 1)%nat.
Proof.
  intros Hall Hsorted. unfold waveforms.
  assert (Hrows : audio_rows env frame = iterrows frame)
    by (apply (sorted_rows_identity env _ frame 0 Hall Hsorted)).
  rewrite Hrows.
  assert (Hlen : length (iterrows frame) = length frame)
    by apply iterrows_from_length.
  destruct (length (iterrows frame) =? 0)%nat; [discriminate|].
  destruct (load_loop env silence_duration _ (iterrows frame)) as [out' r] eqn:Hloop.
  intros [= <- ->].
  destruct (gaps_in_order env (length frame) frame 0 Hall eq_refl) as [Hcount Hdisk].
  rewrite Hlen in Hloop.
  pose proof (load_loop_clips _ _ _ _ _ _ Hloop) as [Hclips _].
  pose proof (load_loop_silence _ _ _ _ _ _ Hloop) as Hsil.
  split.
  - rewrite Hclips. exact Hdisk.
  - rewrite Hsil. unfold iterrows. rewrite Hcount. lia.
Qed.

(** An instance: pages 1 to 3. *)
Lemma silence_law_on_ordered_table_witness :
  clips three_pages_waveforms = iterrows three_pages /\
  count_silence three_pages_waveforms = (length three_pages - 1)%nat.
Proof.
  apply (silence_law_on_ordered_table all_present three_pages short_silence
           [PrintCombining 3]).
  - repeat constructor; eexists; split; reflexivity.
  - repeat constructor; eexists _, _; repeat split; lia.
  - reflexivity.
Defined.
